(* Verification development for AID-Emulator: a shallow embedding of
   emulator/Parameters.js (story cards, shared state), emulator/Loader.js
   (hook loading) and emulator/emulator.js (the turn state machine). *)

From Stdlib Require Import String Ascii List ZArith NArith Bool Lia.
Import ListNotations.
Set Warnings "-register-all".
Open Scope string_scope.
Open Scope list_scope.

(* ================================================================== *)
(** * JavaScript values                                                *)
(* ================================================================== *)

Module Js.

(** The JavaScript values the embedded code handles.  [JErr name msg]
    is an [Error] instance ([new Error(msg)] has name "Error", a failed
    symbol conversion raises a "TypeError"); [JObj] is a plain object
    with its own properties in insertion order. *)
Inductive jsval : Type :=
| JUndef
| JNull
| JBool (b : bool)
| JNum (z : Z)
| JStr (s : string)
| JSym (descr : string)
| JErr (name msg : string)
| JObj (props : list (string * jsval)).

(** Decimal rendering of an integer, as [Number.prototype.toString]. *)
Fixpoint dec_aux (fuel : nat) (n : N) (acc : string) : string :=
  match fuel with
  | O => acc
  | S f =>
      let q := N.div n 10 in
      let acc' := String (ascii_of_N (48 + N.modulo n 10)) acc in
      if (q =? 0)%N then acc' else dec_aux f q acc'
  end.

Definition num_to_string (z : Z) : string :=
  match z with
  | Z0 => "0"
  | Zpos p => dec_aux (Pos.size_nat p) (Npos p) EmptyString
  | Zneg p => String "-" (dec_aux (Pos.size_nat p) (Npos p) EmptyString)
  end.

(** ToString, as used by template literals [`${v}`] and by string
    concatenation.  Symbols cannot be converted: [None] is the TypeError
    the conversion throws.  Error instances print through
    [Error.prototype.toString]; plain objects as "[object Object]". *)
Definition to_string (v : jsval) : option string :=
  match v with
  | JUndef => Some "undefined"
  | JNull => Some "null"
  | JBool true => Some "true"
  | JBool false => Some "false"
  | JNum z => Some (num_to_string z)
  | JStr s => Some s
  | JSym _ => None
  | JErr name msg =>
      Some (if String.eqb msg "" then name else (name ++ ": " ++ msg)%string)
  | JObj _ => Some "[object Object]"
  end.

(** Truthiness, as used by [&&] and [||]. *)
Definition truthy (v : jsval) : bool :=
  match v with
  | JUndef | JNull => false
  | JBool b => b
  | JNum z => negb (Z.eqb z 0)
  | JStr s => negb (String.eqb s "")
  | JSym _ | JErr _ _ | JObj _ => true
  end.

Fixpoint assoc (k : string) (ps : list (string * jsval)) : option jsval :=
  match ps with
  | [] => None
  | (k', v) :: ps' => if String.eqb k k' then Some v else assoc k ps'
  end.

(** Property read [v.k] on a value that is neither [undefined] nor
    [null]: own properties of plain objects, [name] and [message] of
    errors; primitives have no property used by the code. *)
Definition get_prop (v : jsval) (k : string) : jsval :=
  match v with
  | JObj ps => match assoc k ps with Some x => x | None => JUndef end
  | JErr name msg =>
      if String.eqb k "message" then JStr msg
      else if String.eqb k "name" then JStr name else JUndef
  | _ => JUndef
  end.

(** [typeof v === "string"]. *)
Definition is_string (v : jsval) : bool :=
  match v with JStr _ => true | _ => false end.

(** The JavaScript whitespace and line terminators representable in an
    8-bit character: TAB, LF, VT, FF, CR, SPACE and NO-BREAK SPACE.  This
    is the set of [\s] in regular expressions and of [String.prototype.trim]. *)
Definition is_ws (c : ascii) : bool :=
  (Ascii.eqb c "009" || Ascii.eqb c "010" || Ascii.eqb c "011" || Ascii.eqb c "012"
   || Ascii.eqb c "013" || Ascii.eqb c " " || Ascii.eqb c "160")%char%bool.

(** [!s.trim()]: the string has no character other than whitespace. *)
Fixpoint blank (s : string) : bool :=
  match s with
  | EmptyString => true
  | String c t => is_ws c && blank t
  end.

(** A computation that may throw: JavaScript keeps the effects performed
    before a throw, so the state is returned in both cases. *)
Inductive exc (A : Type) : Type :=
| Ok (a : A)
| Throw (e : jsval).
Arguments Ok {A} a.
Arguments Throw {A} e.

Definition M (S A : Type) : Type := S -> S * exc A.

Definition ret {S A} (a : A) : M S A := fun s => (s, Ok a).
Definition throw {S A} (e : jsval) : M S A := fun s => (s, Throw e).
Definition bind {S A B} (c : M S A) (k : A -> M S B) : M S B :=
  fun s => match c s with
           | (s', Ok a) => k a s'
           | (s', Throw e) => (s', Throw e)
           end.
(** [try { c } catch (err) { h(err) }]. *)
Definition catch {S A} (c : M S A) (h : jsval -> M S A) : M S A :=
  fun s => match c s with
           | (s', Ok a) => (s', Ok a)
           | (s', Throw e) => h e s'
           end.
Definition get {S} : M S S := fun s => (s, Ok s).
Definition put {S} (s : S) : M S unit := fun _ => (s, Ok tt).
Definition modify {S} (f : S -> S) : M S unit := fun s => (f s, Ok tt).

End Js.

Import Js.

Notation "x <- c ;; k" := (bind c (fun x => k))
  (at level 61, c at next level, right associativity).
Notation "c ;;; k" := (bind c (fun _ => k))
  (at level 61, right associativity).

(* ================================================================== *)
(** * Parameters.js: story cards                                       *)
(* ================================================================== *)

Module Parameters.

Record card : Type := mkCard {
  id : Z;
  keys : list string;
  entry : string;
  type : string
}.

(** [JSON.stringify] of an array of strings (QuoteJSONString of ECMA-262
    on each element). *)
Definition dq : ascii := ascii_of_nat 34.

Definition hex_digit (n : nat) : ascii :=
  match String.get n "0123456789abcdef" with Some c => c | None => "0"%char end.

Definition escape_char (c : ascii) : string :=
  let n := nat_of_ascii c in
  if Nat.eqb n 8 then "\b"
  else if Nat.eqb n 9 then "\t"
  else if Nat.eqb n 10 then "\n"
  else if Nat.eqb n 12 then "\f"
  else if Nat.eqb n 13 then "\r"
  else if Nat.eqb n 34 then String "\" (String dq EmptyString)
  else if Nat.eqb n 92 then "\\"
  else if Nat.ltb n 32 then
    ("\u00" ++ String (hex_digit (n / 16)) (String (hex_digit (n mod 16)) EmptyString))%string
  else String c EmptyString.

Fixpoint escape (s : string) : string :=
  match s with
  | EmptyString => EmptyString
  | String c t => (escape_char c ++ escape t)%string
  end.

Definition quote (s : string) : string :=
  String dq (escape s ++ String dq EmptyString)%string.

Fixpoint json_elems (ks : list string) : string :=
  match ks with
  | [] => "]"
  | [k] => (quote k ++ "]")%string
  | k :: ks' => (quote k ++ "," ++ json_elems ks')%string
  end.

Definition json_stringify_keys (ks : list string) : string :=
  String "[" (json_elems ks).

(** [addStoryCard(keys, entry, type = "general")] on the module's
    [storyCards] array; returns [false] or the new card's index.  (The
    arguments are primed so as not to shadow the record fields.) *)
Definition addStoryCard (keys' : list string) (entry' type' : string)
  : M (list card) jsval :=
  fun storyCards =>
    let keyString := json_stringify_keys keys' in
    let exists_ := existsb (fun c => String.eqb (json_stringify_keys c.(keys)) keyString)
                           storyCards in
    if exists_ then (storyCards, Ok (JBool false))
    else
      let newCard := {| id := Z.of_nat (length storyCards); keys := keys';
                        entry := entry'; type := type' |} in
      let storyCards' := storyCards ++ [newCard] in
      (storyCards', Ok (JNum (Z.of_nat (length storyCards') - 1))).

(** [storyCards.splice(index, 1)] for an index in range. *)
Definition splice1 {A} (l : list A) (index : nat) : list A :=
  firstn index l ++ skipn (S index) l.

(** [removeStoryCard(index)]. *)
Definition removeStoryCard (index : Z) : M (list card) unit :=
  fun storyCards =>
    if (index <? 0)%Z || (index >=? Z.of_nat (length storyCards))%Z
    then (storyCards, Throw (JErr "Error" "Story card does not exist"))
    else (splice1 storyCards (Z.to_nat index), Ok tt).

(** [updateStoryCard(index, keys, entry, type = "general")]. *)
Definition updateStoryCard (index : Z) (keys' : list string) (entry' type' : string)
  : M (list card) unit :=
  fun storyCards =>
    if (index <? 0)%Z || (index >=? Z.of_nat (length storyCards))%Z
    then (storyCards, Throw (JErr "Error" "Story card does not exist"))
    else (firstn (Z.to_nat index) storyCards
            ++ {| id := index; keys := keys'; entry := entry'; type := type' |}
            :: skipn (S (Z.to_nat index)) storyCards, Ok tt).

End Parameters.

(* ================================================================== *)
(** * Loader.js: assembling and running a hook unit                    *)
(* ================================================================== *)

Module Loader.

Definition nl_char : ascii := ascii_of_nat 10.
Definition nl : string := String nl_char EmptyString.

Fixpoint skip_ws (s : string) : string :=
  match s with
  | EmptyString => EmptyString
  | String c t => if is_ws c then skip_ws t else s
  end.

Fixpoint strip_prefix (p s : string) : option string :=
  match p, s with
  | EmptyString, _ => Some s
  | String a p', String b s' => if Ascii.eqb a b then strip_prefix p' s' else None
  | String _ _, EmptyString => None
  end.

(** The pattern [/modifier\s*\(\s*text\s*\)\s*;?\s*$/] tried at the start
    of [s]: without the [m] flag, [$] only matches at the end of the whole
    source, so the match must run to the end of [s]. *)
Definition capture_at (s : string) : bool :=
  match strip_prefix "modifier" s with
  | None => false
  | Some s1 =>
      match strip_prefix "(" (skip_ws s1) with
      | None => false
      | Some s2 =>
          match strip_prefix "text" (skip_ws s2) with
          | None => false
          | Some s3 =>
              match strip_prefix ")" (skip_ws s3) with
              | None => false
              | Some s4 =>
                  let s5 := skip_ws s4 in
                  let s6 := match strip_prefix ";" s5 with Some t => t | None => s5 end in
                  match skip_ws s6 with EmptyString => true | String _ _ => false end
              end
          end
      end
  end.

(** [modifierSource.replace(pattern, 'return modifier(text);')]: the
    leftmost match is replaced; the pattern starts with a letter, so it
    never matches the empty suffix. *)
Fixpoint capture_rewrite (s : string) : string :=
  if capture_at s then "return modifier(text);"
  else match s with
       | EmptyString => EmptyString
       | String c t => String c (capture_rewrite t)
       end.

Fixpoint join (sep : string) (xs : list string) : string :=
  match xs with
  | [] => EmptyString
  | [x] => x
  | x :: xs' => (x ++ sep ++ join sep xs')%string
  end.

(** [Object.keys(globals).map(key => `let ${key} = globals["${key}"];`).join("\n")]. *)
Definition globalsCode (keys : list string) : string :=
  join nl (map (fun key =>
     ("let " ++ key ++ " = globals[" ++ String Parameters.dq key
      ++ String Parameters.dq "];")%string)
     keys).

(** The body handed to [new Function('globals', `...`)]: the lines of the
    template literal, joined by its line feeds. *)
Definition sandbox_body (keys : list string) (librarySource modifierSource : string) : string :=
  join nl
    [ EmptyString;
      "    // --- Inject emulator globals as local variables";
      "    " ++ globalsCode keys;
      EmptyString;
      "    // --- Execute Library.js first";
      "    " ++ librarySource;
      "    ";
      "    // --- Then execute modifier file (with capture)";
      "    " ++ modifierSource;
      "  " ]%string.

(** ** The JavaScript fragment the loader's run is modelled for

    Running the assembled body is modelled for code written one statement
    per line, each line made of printable ASCII characters and tabs only
    (so the only line terminator is the line feed: no CR, U+2028 or
    U+2029).  A line, once its [//] comment and surrounding blanks are
    removed, is empty, one of the [let] lines [globalsCode] injects, the
    expression statement [modifier(text)] (any spacing, optional
    semicolon), the statement [return modifier(text);], or a one-line
    declaration [function modifier(text) { return e; }] with [e] one of
    [text], [{ text }], [{ text: text }], ['lit'] and [{ text: 'lit' }]
    ([lit] without quote or backslash).  Any other line ([throw],
    [if], [var], an unclosed comment, ...) is outside the fragment and the
    model gives no result for the whole load. *)
Fixpoint strip_comment (s : string) : string :=
  match s with
  | EmptyString => EmptyString
  | String c t =>
      match t with
      | String c' _ => if Ascii.eqb c "/"%char && Ascii.eqb c' "/"%char
                       then EmptyString else String c (strip_comment t)
      | EmptyString => String c EmptyString
      end
  end.

Fixpoint drop_trailing_ws (s : string) : string :=
  match s with
  | EmptyString => EmptyString
  | String c t =>
      let t' := drop_trailing_ws t in
      if is_ws c && String.eqb t' EmptyString then EmptyString else String c t'
  end.

Definition trim (s : string) : string := drop_trailing_ws (skip_ws s).

(** A tab or a printable ASCII character. *)
Definition printable (c : ascii) : bool :=
  let n := N_of_ascii c in (n =? 9)%N || ((32 <=? n)%N && (n <=? 126)%N).

Fixpoint all_printable (s : string) : bool :=
  match s with
  | EmptyString => true
  | String c t => printable c && all_printable t
  end.

Fixpoint has_ascii (c : ascii) (s : string) : bool :=
  match s with
  | EmptyString => false
  | String c' t => Ascii.eqb c c' || has_ascii c t
  end.

Definition strip_suffix (suf s : string) : option string :=
  let n := String.length s in
  let k := String.length suf in
  if Nat.leb k n && String.eqb (substring (n - k) k s) suf
  then Some (substring 0 (n - k) s) else None.

(** The value a [return] expression of the fragment denotes, given the
    parameter [text]. *)
Inductive expr : Type :=
| EParam
| EObjParam
| ELit (s : string)
| EObjLit (s : string).

Definition eval_expr (e : expr) (text : string) : jsval :=
  match e with
  | EParam => JStr text
  | EObjParam => JObj [("text", JStr text)]
  | ELit s => JStr s
  | EObjLit s => JObj [("text", JStr s)]
  end.

(** A single-quoted literal without escapes. *)
Definition quoted (q : string) : option string :=
  match strip_prefix "'" q with
  | None => None
  | Some r =>
      match strip_suffix "'" r with
      | Some s => if has_ascii "'" s || has_ascii "\" s then None else Some s
      | None => None
      end
  end.

Definition parse_expr (e : string) : option expr :=
  if String.eqb e "text" then Some EParam
  else if String.eqb e "{ text }" || String.eqb e "{ text: text }" then Some EObjParam
  else match quoted e with
       | Some s => Some (ELit s)
       | None =>
           match strip_prefix "{ text: " e with
           | Some r => match strip_suffix " }" r with
                       | Some q => option_map EObjLit (quoted q)
                       | None => None
                       end
           | None => None
           end
       end.

Definition parse_def (t : string) : option expr :=
  match strip_prefix "function modifier(text) { return " t with
  | Some r => match strip_suffix "; }" r with Some e => parse_expr e | None => None end
  | None => None
  end.

(** The keys of the globals object the emulator passes ([getHookGlobals]). *)
Definition hook_global_keys : list string :=
  ["state"; "text"; "history"; "storyCards"; "addStoryCard"; "removeStoryCard";
   "updateStoryCard"].

(** The line [globalsCode] injects for [key]. *)
Definition let_line (key : string) : string :=
  ("let " ++ key ++ " = globals[" ++ String Parameters.dq key
   ++ String Parameters.dq "];")%string.

Definition find_let (t : string) : option string :=
  find (fun k => String.eqb t (let_line k)) hook_global_keys.

Inductive line_kind : Type :=
| KBlank
| KLet (key : string)
| KCall
| KReturnCall
| KDef (e : expr)
| KUnknown.

Definition classify (line : string) : line_kind :=
  if negb (all_printable line) then KUnknown
  else
    let t := trim (strip_comment line) in
    if String.eqb t EmptyString then KBlank
    else if String.eqb t "return modifier(text);" then KReturnCall
    else if capture_at t then KCall
    else match find_let t with
         | Some k => KLet k
         | None => match parse_def t with Some e => KDef e | None => KUnknown end
         end.

(** Source lines, split at line feeds. *)
Fixpoint lines (s : string) : list string :=
  match s with
  | EmptyString => [EmptyString]
  | String c t =>
      if Ascii.eqb c nl_char then EmptyString :: lines t
      else match lines t with
           | l :: ls => String c l :: ls
           | [] => [String c EmptyString]
           end
  end.

Fixpoint let_names (ks : list line_kind) : list string :=
  match ks with
  | [] => []
  | KLet k :: ks' => k :: let_names ks'
  | _ :: ks' => let_names ks'
  end.

Fixpoint nodup_strings (l : list string) : bool :=
  match l with
  | [] => true
  | x :: l' => negb (existsb (String.eqb x) l') && nodup_strings l'
  end.

(** The body parses: every line is in the fragment and no [let] binding
    is declared twice (a second [let text] is a SyntaxError). *)
Definition in_fragment (ks : list line_kind) : bool :=
  forallb (fun k => match k with KUnknown => false | _ => true end) ks
  && nodup_strings (let_names ks).

(** Function declarations are hoisted: the binding of [modifier] is the
    last declaration of the body, wherever the calls are. *)
Fixpoint last_def (ks : list line_kind) : option expr :=
  match ks with
  | [] => None
  | k :: ks' =>
      match last_def ks' with
      | Some e => Some e
      | None => match k with KDef e => Some e | _ => None end
      end
  end.

(** The [ReferenceError] of calling an undeclared [modifier]. *)
Definition reference_error : jsval := JErr "ReferenceError" "modifier is not defined".

(** Runs the function body, line by line: the number of calls of
    [modifier] and the completion, with [def] the hoisted declaration and
    [text] the value of the injected [text] binding. *)
Fixpoint exec (def : option expr) (text : string) (ks : list line_kind) (calls : nat)
  : option (nat * exc jsval) :=
  match ks with
  | [] => Some (calls, Ok JUndef)
  | k :: ks' =>
      match k with
      | KBlank | KLet _ | KDef _ => exec def text ks' calls
      | KCall => match def with
                 | Some _ => exec def text ks' (S calls)
                 | None => Some (calls, Throw reference_error)
                 end
      | KReturnCall => match def with
                       | Some e => Some (S calls, Ok (eval_expr e text))
                       | None => Some (calls, Throw reference_error)
                       end
      | KUnknown => None
      end
  end.

(** [loadModifier(modifierPath, globals)], [globals] being the object of
    [getHookGlobals(arg)]: the two fetched sources ([None] for a failed
    fetch), then the capture rewrite, assembly and run.  The result is the
    number of [modifier] calls and the returned value or the error thrown;
    [None] when the body is outside the fragment. *)
Definition loadModifier (arg : string) (libResp modResp : option string)
  : option (nat * exc jsval) :=
  match libResp, modResp with
  | None, _ => Some (0, Throw (JErr "Error" "Failed to load Library.js: "))
  | Some _, None => Some (0, Throw (JErr "Error" "Failed to load modifier"))
  | Some librarySource, Some modifierSource0 =>
      let modifierSource := capture_rewrite modifierSource0 in
      let ks := map classify (lines (sandbox_body hook_global_keys librarySource modifierSource)) in
      if in_fragment ks then exec (last_def ks) arg ks 0 else None
  end.

End Loader.

(* ================================================================== *)
(** * emulator.js: the turn state machine                              *)
(* ================================================================== *)

Module Emulator.
Import Parameters.

(** A history entry [{mode, text}]. *)
Record entry : Type := mkEntry { mode : string; text : jsval }.

(** The objects of Parameters.js the hooks share with the emulator:
    [history], [storyCards] and [state.memory] (a plain object). *)
Record world : Type := mkWorld {
  history : list entry;
  storyCards : list card;
  memory : list (string * jsval)
}.

Definition initial_world : world :=
  {| history := [];
     storyCards := [];
     memory := [("context", JStr ""); ("authorsNote", JStr ""); ("frontMemory", JStr "")] |}.

Inductive side : Type := User | AI.

Inductive hook_name : Type := InputModifier | ContextModifier | OutputModifier.

(** What [await runXModifier(globals)] does: it returns the captured value
    or throws (a failed fetch throws an [Error]); meanwhile the hook body
    may have changed the shared objects it was given. *)
Inductive outcome : Type :=
| Returned (v : jsval)
| Threw (e : jsval).

(** A hook, given the shared objects and the [text] global. *)
Definition hook : Type := world -> string -> world * outcome.

Record hooks : Type := mkHooks {
  inputModifier : hook;
  contextModifier : hook;
  outputModifier : hook
}.

Definition hook_of (H : hooks) (name : hook_name) : hook :=
  match name with
  | InputModifier => inputModifier H
  | ContextModifier => contextModifier H
  | OutputModifier => outputModifier H
  end.

(** The emulator object and the shared objects.  [calls] records every
    hook invocation (hook, its [text] global, the [history] it was handed);
    it is observation only and nothing reads it. *)
Record emulator : Type := mkEmulator {
  currentSide : side;
  selectedMode : string;
  world_ : world;
  calls : list (hook_name * string * list entry)
}.

Definition set_world (w : world) (st : emulator) : emulator :=
  {| currentSide := currentSide st; selectedMode := selectedMode st;
     world_ := w; calls := calls st |}.

Definition set_side (s : side) (st : emulator) : emulator :=
  {| currentSide := s; selectedMode := selectedMode st;
     world_ := world_ st; calls := calls st |}.

Definition log_call (c : hook_name * string * list entry) (st : emulator) : emulator :=
  {| currentSide := currentSide st; selectedMode := selectedMode st;
     world_ := world_ st; calls := calls st ++ [c] |}.

(** [history.push(e)]. *)
Definition push_history (e : entry) : M emulator unit :=
  modify (fun st => let w := world_ st in
    set_world {| history := history w ++ [e]; storyCards := storyCards w;
                 memory := memory w |} st).

(** Assignment [obj.k = v] on a plain object: an existing property keeps
    its place, a new one goes last. *)
Fixpoint set_prop (k : string) (v : jsval) (ps : list (string * jsval)) : list (string * jsval) :=
  match ps with
  | [] => [(k, v)]
  | (k', v') :: ps' => if String.eqb k k' then (k, v) :: ps' else (k', v') :: set_prop k v ps'
  end.

(** [state.memory.k = v]. *)
Definition set_memory (k : string) (v : jsval) : M emulator unit :=
  modify (fun st => let w := world_ st in
    set_world {| history := history w; storyCards := storyCards w;
                 memory := set_prop k v (memory w) |} st).

(** The TypeError a failed string conversion throws. *)
Definition conversion_error : jsval := JErr "TypeError" "Cannot convert value to a string".

(** [history.map(h => `${h.text}`)]. *)
Fixpoint history_texts (h : list entry) : option (list string) :=
  match h with
  | [] => Some []
  | e :: h' =>
      match to_string (text e), history_texts h' with
      | Some s, Some ss => Some (s :: ss)
      | _, _ => None
      end
  end.

(** [safeCallHook(name, arg)]. *)
Definition safeCallHook (H : hooks) (name : hook_name) (arg : string) : M emulator string :=
  fun st =>
    let st0 := log_call (name, arg, history (world_ st)) st in
    let '(w', o) := hook_of H name (world_ st) arg in
    let st1 := set_world w' st0 in
    match o with
    | Returned result =>
        (* if (result && typeof result.text === "string") return result.text; *)
        if truthy result then
          match get_prop result "text" with
          | JStr s => (st1, Ok s)
          | _ => (st1, Ok arg)
          end
        else (st1, Ok arg)
    | Threw err =>
        (* catch (err) { this.renderer_log(`Hook ${name} threw: ${err}`); return arg; } *)
        match to_string err with
        | Some _ => (st1, Ok arg)
        | None => (st1, Throw conversion_error)
        end
    end.

(** The handler of [processInput] and [processOutput]:
    [this.renderer_log("Error processing ...: " + err.message)], after
    which the function returns [undefined]. *)
Definition process_handler (err : jsval) : M emulator jsval :=
  match err with
  | JUndef | JNull => throw (JErr "TypeError" "Cannot read properties of undefined")
  | _ => match to_string (get_prop err "message") with
         | Some _ => ret JUndef
         | None => throw conversion_error
         end
  end.

(** [processInput(mode, rawText)]; [mode] only appears in a log line. *)
Definition processInput (H : hooks) (mode : string) (rawText : string) : M emulator jsval :=
  catch (modified <- safeCallHook H InputModifier rawText ;; ret (JStr modified))
        process_handler.

(** [processOutput(rawText)]. *)
Definition processOutput (H : hooks) (rawText : string) : M emulator jsval :=
  catch (modified <- safeCallHook H OutputModifier rawText ;; ret (JStr modified))
        process_handler.

(** [processContext()]. *)
Definition processContext (H : hooks) : M emulator string :=
  st <- get ;;
  match history_texts (history (world_ st)) with
  | None => throw conversion_error
  | Some texts =>
      let rawContext := Loader.join Loader.nl texts in
      set_memory "frontMemory" (JStr "") ;;;
      safeCallHook H ContextModifier rawContext
  end.

(** [renderer_updateMainView(context)], the page's DOM being present: on
    the user's side [buildUserView] converts every history text, on the
    AI's side [buildAIView] only handles the context string. *)
Definition renderer_updateMainView (context : option string) : M emulator unit :=
  st <- get ;;
  match currentSide st with
  | User => match history_texts (history (world_ st)) with
            | Some _ => ret tt
            | None => throw conversion_error
            end
  | AI => ret tt
  end.

(** [handleInput(mode, text)] once [init] has completed.  The result is the
    [context] the call hands to [renderer_updateMainView]: the
    [contextModifier] output on the user's side, [undefined] ([None])
    otherwise. *)
Definition handleInput (H : hooks) (mode text : string) : M emulator (option string) :=
  st <- get ;;
  let mode := if truthy (JStr mode) then mode
              else if truthy (JStr (selectedMode st)) then selectedMode st else "say" in
  if blank text then ret None
  else
    match currentSide st with
    | User =>
        newText <- processInput H mode text ;;
        push_history {| mode := ""; text := newText |} ;;;
        context <- processContext H ;;
        modify (set_side AI) ;;;
        renderer_updateMainView (Some context) ;;;
        ret (Some context)
    | AI =>
        newText <- processOutput H text ;;
        push_history {| mode := ""; text := newText |} ;;;
        modify (set_side User) ;;;
        renderer_updateMainView None ;;;
        ret None
    end.

Definition start_entry : entry :=
  {| mode := "start"; text := JStr "=== New Session Started ===" |}.

(** [init()]: the initial render, then the session-start entry. *)
Definition init : M emulator unit :=
  renderer_updateMainView None ;;;
  push_history start_entry.

(** [new Emulator()] on the fresh objects of Parameters.js, its [init]
    completed. *)
Definition new_emulator : emulator :=
  fst (init {| currentSide := User; selectedMode := "say";
               world_ := initial_world; calls := [] |}).

(** A session: [handleInput] called on each [(mode, text)] in turn, each
    call awaited; a call that throws leaves its effects and the session
    goes on. *)
Definition run (H : hooks) (inputs : list (string * string)) (st : emulator) : emulator :=
  fold_left (fun st mt => fst (handleInput H (fst mt) (snd mt) st)) inputs st.

(** The identity hook of the scripts: [modifier = text => ({ text })]. *)
Definition id_hook : hook := fun w s => (w, Returned (JObj [("text", JStr s)])).

Definition id_hooks : hooks := mkHooks id_hook id_hook id_hook.

End Emulator.

(* ================================================================== *)
(** * emulator.js: the rendered views                                   *)
(* ================================================================== *)

Module Views.
Import Emulator.

(** [s.replace(/c/g, r)] for a one-character pattern [c] and a
    replacement [r] without [$] patterns: every occurrence, left to
    right, the replacements not scanned again. *)
Fixpoint replace_char (c : ascii) (r s : string) : string :=
  match s with
  | EmptyString => EmptyString
  | String c' t => if Ascii.eqb c c' then (r ++ replace_char c r t)%string
                   else String c' (replace_char c r t)
  end.

(** [String(v)]: unlike a template literal, it converts a Symbol to its
    description [Symbol(descr)]. *)
Definition js_String (v : jsval) : string :=
  match v with
  | JSym d => ("Symbol(" ++ d ++ ")")%string
  | _ => match to_string v with Some s => s | None => EmptyString end
  end.

(** [escapeHtml(text)]. *)
Definition escapeHtml (v : jsval) : string :=
  match v with
  | JUndef | JNull => EmptyString
  | _ => replace_char Loader.nl_char "<br>"
           (replace_char ">" "&gt;"
              (replace_char "<" "&lt;"
                 (replace_char "&" "&amp;" (js_String v))))
  end.




End Views.


(* ================================================================== *)
(** * Definitions the statements and proofs use                        *)
(* ================================================================== *)

Module StoryCardDefs.
Import Parameters.

(** A decoder for the JSON string literals [quote] produces: reads up to
    the closing quote and returns the decoded contents and the rest. *)
Definition hex_val (c : ascii) : nat :=
  let n := nat_of_ascii c in if Nat.ltb n 58 then n - 48 else n - 87.

Fixpoint dec_str (s : string) : option (string * string) :=
  match s with
  | EmptyString => None
  | String c t =>
      if Ascii.eqb c dq then Some (EmptyString, t)
      else if Ascii.eqb c "\"%char then
        match t with
        | EmptyString => None
        | String e t2 =>
            if Ascii.eqb e "u"%char then
              match t2 with
              | String _ (String _ (String h1 (String h2 t3))) =>
                  match dec_str t3 with
                  | Some (x, r) => Some (String (ascii_of_nat (hex_val h1 * 16 + hex_val h2)) x, r)
                  | None => None
                  end
              | _ => None
              end
            else
              let d := if Ascii.eqb e "b"%char then Some (ascii_of_nat 8)
                       else if Ascii.eqb e "t"%char then Some (ascii_of_nat 9)
                       else if Ascii.eqb e "n"%char then Some (ascii_of_nat 10)
                       else if Ascii.eqb e "f"%char then Some (ascii_of_nat 12)
                       else if Ascii.eqb e "r"%char then Some (ascii_of_nat 13)
                       else if Ascii.eqb e dq then Some dq
                       else if Ascii.eqb e "\"%char then Some "\"%char
                       else None in
              match d, dec_str t2 with
              | Some c', Some (x, r) => Some (String c' x, r)
              | _, _ => None
              end
        end
      else match dec_str t with
           | Some (x, r) => Some (String c x, r)
           | None => None
           end
  end.

(** What follows the first element in [json_elems]. *)
Definition elems_tail (ks : list string) : string :=
  match ks with [] => "]" | _ => String "," (json_elems ks) end.

(** A two-card registry, as [addStoryCard] builds it. *)
Definition card_first : card := mkCard 0 ["a"] "first" "general".
Definition card_second : card := mkCard 1 ["b"] "second" "general".

End StoryCardDefs.

Module LoaderDefs.
Import Loader.

(** Occurrences of a character. *)
Fixpoint count_char (c : ascii) (s : string) : nat :=
  match s with
  | EmptyString => 0
  | String c' t => (if Ascii.eqb c c' then 1 else 0) + count_char c t
  end.



(** Whether a character occurs. *)
Fixpoint has_char (c : ascii) (s : string) : bool :=
  match s with
  | EmptyString => false
  | String c' t => Ascii.eqb c c' || has_char c t
  end.

(** The text of source lines, each ended by a line feed. *)
Definition unlines (ls : list string) : string :=
  fold_right (fun l acc => (l ++ String nl_char acc)%string) EmptyString ls.

(** The call [modifier(text)], with or without its semicolon, then blanks. *)
Definition trailing_call (semi : bool) (ws : string) : string :=
  ("modifier(text)" ++ (if semi then ";" else EmptyString) ++ ws)%string.


End LoaderDefs.

Module EmulatorDefs.
Import Parameters Emulator.

(** The output [safeCallHook] settles on when the hook's result is
    [o] and the call does not throw. *)
Definition accepted (arg : string) (o : outcome) : string :=
  match o with
  | Returned result =>
      if truthy result then
        match get_prop result "text" with JStr s => s | _ => arg end
      else arg
  | Threw _ => arg
  end.

(** Every value the hook throws converts to a string (it is no Symbol). *)
Definition throws_printable (h : hook) : Prop :=
  forall w s e, snd (h w s) = Threw e -> to_string e <> None.

(** The hook leaves the shared [history] array as it found it. *)
Definition history_preserving (h : hook) : Prop :=
  forall w s, history (fst (h w s)) = history w.

(** The hook leaves [state.memory] as it found it. *)
Definition memory_preserving (h : hook) : Prop :=
  forall w s, memory (fst (h w s)) = memory w.

(** The side after a completed turn. *)
Definition flip (s : side) : side := match s with User => AI | AI => User end.

(** The hook a turn on a side runs first. *)
Definition first_hook (s : side) : hook_name :=
  match s with User => InputModifier | AI => OutputModifier end.

(** History only grows: [st'] keeps the entries of [st] as a prefix. *)
Definition extends (st st' : emulator) : Prop :=
  exists l, history (world_ st') = history (world_ st) ++ l.

(** A computation after which history extends the one before. *)
Definition extending {A} (c : M emulator A) : Prop := forall st, extends st (fst (c st)).

(** The hook only appends to the shared [history] array. *)
Definition history_extending (h : hook) : Prop :=
  forall w s, exists l, history (fst (h w s)) = history w ++ l.

(** [m'] is [m], or [m] with [frontMemory] set to the empty string. *)
Definition frontMemory_reset_only (m m' : list (string * jsval)) : Prop :=
  m' = m \/ m' = set_prop "frontMemory" (JStr "") m.

(** A hook unit whose [modifier] returns a plain string. *)
Definition string_hook_source : string :=
  ("function modifier(text) { return 'changed'; }" ++ Loader.nl
   ++ "modifier(text);")%string.

(** Hooks handing back a plain string, an object with a string [text],
    and an object with a numeric [text]. *)
Definition string_hook : hook := fun w _ => (w, Returned (JStr "changed")).

Definition changed_hook : hook := fun w _ => (w, Returned (JObj [("text", JStr "changed")])).

Definition text42_hook : hook := fun w _ => (w, Returned (JObj [("text", JNum 42)])).

(** An input hook that empties the shared [history] array
    ([history.length = 0]) and returns its text unchanged. *)
Definition clear_hook : hook :=
  fun w s => ({| history := []; storyCards := storyCards w; memory := memory w |},
             Returned (JObj [("text", JStr s)])).

(** A hook whose body throws a Symbol. *)
Definition symbol_hook : hook := fun w _ => (w, Threw (JSym "boom")).

(** The hook a failed load amounts to: [runXModifier] throws the fetch
    error. *)
Definition failed_load_hook : hook :=
  fun w _ => (w, Threw (JErr "Error" "Failed to load modifier")).

Definition failing_hooks : hooks := mkHooks failed_load_hook failed_load_hook failed_load_hook.

End EmulatorDefs.

Module CardDefs.
Import Parameters.

(** Every card's stored [id] is its position, counted from [n]. *)
Fixpoint ids_from (n : nat) (cards : list card) : bool :=
  match cards with
  | [] => true
  | c :: cs => Z.eqb (id c) (Z.of_nat n) && ids_from (S n) cs
  end.

End CardDefs.

Module ViewDefs.

(** A decoder for [escapeHtml]'s output: the four entities back to the
    characters they stand for. *)
Fixpoint unescape_html (s : string) : string :=
  match s with
  | String "&" (String "a" (String "m" (String "p" (String ";" t)))) =>
      String "&" (unescape_html t)
  | String "&" (String "l" (String "t" (String ";" t))) => String "<" (unescape_html t)
  | String "&" (String "g" (String "t" (String ";" t))) => String ">" (unescape_html t)
  | String "<" (String "b" (String "r" (String ">" t))) =>
      String Loader.nl_char (unescape_html t)
  | String c t => String c (unescape_html t)
  | EmptyString => EmptyString
  end.

(** What [escapeHtml]'s four passes make of one character. *)
Definition escape_html_char (c : ascii) : string :=
  if Ascii.eqb c "&" then "&amp;"
  else if Ascii.eqb c "<" then "&lt;"
  else if Ascii.eqb c ">" then "&gt;"
  else if Ascii.eqb c Loader.nl_char then "<br>"
  else String c EmptyString.

End ViewDefs.

Module SessionDefs.
Import Emulator.

(** The inputs [handleInput] does not ignore: those whose text is not blank. *)
Definition nonblank_inputs (inputs : list (string * string)) : list (string * string) :=
  filter (fun mt => negb (blank (snd mt))) inputs.

End SessionDefs.


(* ================================================================== *)
(** * Story cards: the key-sequence comparison                         *)
(* ================================================================== *)

Module StoryCards.
Import Parameters StoryCardDefs.

Lemma append_assoc (a b c : string) : (a ++ (b ++ c) = (a ++ b) ++ c)%string.
Proof. induction a as [|x a IH]; cbn; [reflexivity|now rewrite IH]. Qed.

Lemma dec_escape_char (c : ascii) (rest : string) :
  dec_str (escape_char c ++ rest) =
  match dec_str rest with Some (x, r) => Some (String c x, r) | None => None end.
Proof.
  destruct c as [[] [] [] [] [] [] [] []]; reflexivity.
Qed.

Lemma dec_quote_body (k rest : string) :
  dec_str (escape k ++ String dq rest) = Some (k, rest).
Proof.
  induction k as [|c k IH]; [reflexivity|].
  cbn [escape]. rewrite <- append_assoc, dec_escape_char, IH. reflexivity.
Qed.

Lemma json_elems_cons (k : string) (ks : list string) :
  json_elems (k :: ks) = String dq (escape k ++ String dq (elems_tail ks)).
Proof.
  destruct ks; cbn [json_elems elems_tail]; unfold quote; cbn [append];
    rewrite <- append_assoc; reflexivity.
Qed.

Lemma json_elems_inj (a b : list string) :
  json_elems a = json_elems b -> a = b.
Proof.
  revert b; induction a as [|k ks IH]; intros [|k' ks'] H.
  - reflexivity.
  - rewrite json_elems_cons in H; discriminate.
  - rewrite json_elems_cons in H; discriminate.
  - rewrite !json_elems_cons in H. injection H as H.
    assert (Hd := f_equal dec_str H). rewrite !dec_quote_body in Hd.
    injection Hd as -> Ht. f_equal.
    destruct ks, ks'; cbn [elems_tail] in Ht; try reflexivity;
      try (rewrite json_elems_cons in Ht; discriminate).
    injection Ht as Ht. apply IH; exact Ht.
Qed.

(** [JSON.stringify] is injective on arrays of strings: the comparison of
    serialisations in [addStoryCard] is the order-sensitive structural
    comparison of the key sequences. *)
Lemma json_stringify_keys_eq (a b : list string) :
  String.eqb (json_stringify_keys a) (json_stringify_keys b) = true <-> a = b.
Proof.
  rewrite String.eqb_eq. split.
  - unfold json_stringify_keys. intros H. injection H as H. apply json_elems_inj, H.
  - intros ->; reflexivity.
Qed.

Lemma key_clash_iff (cards : list card) (ks : list string) :
  existsb (fun c => String.eqb (json_stringify_keys c.(keys)) (json_stringify_keys ks)) cards
    = true <-> exists c, In c cards /\ c.(keys) = ks.
Proof.
  rewrite existsb_exists. split.
  - intros [c [Hin Heq]]. apply json_stringify_keys_eq in Heq. eauto.
  - intros [c [Hin Heq]]. exists c. split; [exact Hin|].
    apply json_stringify_keys_eq; exact Heq.
Qed.

End StoryCards.

Module StoryCardProofs.
Import Parameters StoryCardDefs StoryCards.

Lemma splice1_nth {A} (l : list A) (n j : nat) :
  n < length l ->
  nth_error (splice1 l n) j = nth_error l (if Nat.ltb j n then j else S j).
Proof.
  revert n j; induction l as [|x l IH]; intros n j Hn; cbn in Hn; [lia|].
  destruct n as [|n].
  - reflexivity.
  - destruct j as [|j]; [reflexivity|].
    unfold splice1 in *; cbn [firstn skipn app nth_error].
    rewrite IH by lia.
    replace (Nat.ltb (S j) (S n)) with (Nat.ltb j n) by reflexivity.
    destruct (Nat.ltb j n); reflexivity.
Qed.

Lemma length_splice1 {A} (l : list A) (n : nat) :
  n < length l -> length (splice1 l n) = length l - 1.
Proof.
  revert n; induction l as [|x l IH]; intros n Hn; cbn in Hn; [lia|].
  destruct n as [|n]; [cbn; lia|].
  unfold splice1 in *; cbn [firstn skipn app length]. rewrite IH by lia. lia.
Qed.

(** C5: a card whose key sequence equals [keys'] (the serialised
    comparison is structural and order-sensitive) makes [addStoryCard]
    return [false] and leave the registry as it is; otherwise one card is
    appended and its position is returned.  Adding the keys ["a";"b"]
    twice to an empty registry returns 0, then [false] with the registry
    unchanged. *)
Theorem addStoryCard_rejects_duplicate_keys :
  (forall (cards : list card) (keys' : list string) (entry' type' : string),
      ((exists c, In c cards /\ c.(keys) = keys') ->
       addStoryCard keys' entry' type' cards = (cards, Ok (JBool false))) /\
      ((~ exists c, In c cards /\ c.(keys) = keys') ->
       addStoryCard keys' entry' type' cards =
         (cards ++ [mkCard (Z.of_nat (length cards)) keys' entry' type'],
          Ok (JNum (Z.of_nat (length cards)))))) /\
  (forall entry1 type1 entry2 type2 : string,
      let '(reg1, r1) := addStoryCard ["a"; "b"] entry1 type1 [] in
      let '(reg2, r2) := addStoryCard ["a"; "b"] entry2 type2 reg1 in
      r1 = Ok (JNum 0) /\ r2 = Ok (JBool false) /\ reg2 = reg1 /\ length reg1 = 1).
Proof.
  split.
  - intros cards keys' entry' type'. unfold addStoryCard. split.
    + intros Hex. apply key_clash_iff in Hex. now rewrite Hex.
    + intros Hnex.
      destruct (existsb _ cards) eqn:E.
      * exfalso. apply Hnex, key_clash_iff, E.
      * cbv zeta. rewrite List.length_app. cbn [Datatypes.length]. do 3 f_equal. lia.
  - intros. cbn. repeat split.
Qed.


(** C6, counterexample: removing index 0 from a two-card registry leaves
    a single card whose stored [id] is still 1, not 0; and an index out
    of bounds throws a plain [Error], not a [RangeError]. *)
Lemma removeStoryCard_keeps_stale_id :
  (forall c, fst (removeStoryCard 0 [card_first; card_second]) = [c] -> c.(id) <> 0%Z) /\
  (forall msg, snd (removeStoryCard 2 [card_first; card_second]) <> Throw (JErr "RangeError" msg)).
Proof.
  split.
  - cbn. intros c Hc. injection Hc as <-. cbn. discriminate.
  - intros msg. cbn. discriminate.
Qed.

(** C6, as amended: [removeStoryCard(index)] throws the [Error] "Story
    card does not exist" exactly when [index < 0] or [index >= length],
    leaving the registry unchanged; otherwise it removes the card at that
    position, every later card moving down one position with its record
    (including its stored [id]) unchanged.  From a two-card registry,
    removing index 0 leaves exactly the original second card. *)
Theorem removeStoryCard_splices :
  (forall (cards : list card) (index : Z),
      ((index < 0 \/ index >= Z.of_nat (length cards))%Z ->
       removeStoryCard index cards
         = (cards, Throw (JErr "Error" "Story card does not exist"))) /\
      ((0 <= index < Z.of_nat (length cards))%Z ->
       exists cards',
         removeStoryCard index cards = (cards', Ok tt) /\
         length cards' = length cards - 1 /\
         forall j, nth_error cards' j =
                   nth_error cards (if Nat.ltb j (Z.to_nat index) then j else S j))) /\
  (forall c0 c1 : card, removeStoryCard 0 [c0; c1] = ([c1], Ok tt)).
Proof.
  split.
  - intros cards index. unfold removeStoryCard. split.
    + intros H. replace ((index <? 0)%Z || (index >=? Z.of_nat (length cards))%Z)
        with true; [reflexivity|].
      symmetry. apply orb_true_iff.
      destruct H; [left; apply Z.ltb_lt | right; apply Z.geb_le]; lia.
    + intros H. replace ((index <? 0)%Z || (index >=? Z.of_nat (length cards))%Z)
        with false.
      * eexists; split; [reflexivity|]. split.
        -- apply length_splice1; lia.
        -- intros j. apply splice1_nth; lia.
      * symmetry. apply orb_false_iff. split; [apply Z.ltb_ge | ]; [lia|].
        rewrite Z.geb_leb. apply Z.leb_gt. lia.
  - intros c0 c1. reflexivity.
Qed.

End StoryCardProofs.

Module LoaderProofs.
Import Loader LoaderDefs.

Lemma count_skip_ws (s : string) : count_char "m" (skip_ws s) = count_char "m" s.
Proof.
  induction s as [|c t IH]; [reflexivity|]. cbn [skip_ws].
  destruct (is_ws c) eqn:E; [|reflexivity].
  cbn [count_char]. rewrite IH.
  destruct c as [[] [] [] [] [] [] [] []]; cbn in E |- *; try discriminate; reflexivity.
Qed.

Lemma count_strip_prefix (p s r : string) :
  strip_prefix p s = Some r -> count_char "m" s = count_char "m" p + count_char "m" r.
Proof.
  revert s; induction p as [|a p IH]; intros s H.
  - cbn in H. injection H as ->. reflexivity.
  - destruct s as [|b s]; cbn in H; [discriminate|].
    destruct (Ascii.eqb a b) eqn:E; [|discriminate].
    apply Ascii.eqb_eq in E; subst b. cbn [count_char]. rewrite (IH s H). lia.
Qed.

Lemma strip_prefix_app (p s r : string) :
  strip_prefix p s = Some r -> s = (p ++ r)%string.
Proof.
  revert s; induction p as [|a p IH]; intros s H.
  - cbn in H. injection H as ->. reflexivity.
  - destruct s as [|b s]; cbn in H; [discriminate|].
    destruct (Ascii.eqb a b) eqn:E; [|discriminate].
    apply Ascii.eqb_eq in E; subst b. cbn. f_equal. apply IH, H.
Qed.

(** A match of the capture pattern starts with the only [m] it contains. *)
Lemma capture_at_shape (s : string) :
  capture_at s = true -> exists t, s = String "m" t /\ count_char "m" t = 0.
Proof.
  unfold capture_at.
  destruct (strip_prefix "modifier" s) as [s1|] eqn:E1; [|discriminate].
  destruct (strip_prefix "(" (skip_ws s1)) as [s2|] eqn:E2; [|discriminate].
  destruct (strip_prefix "text" (skip_ws s2)) as [s3|] eqn:E3; [|discriminate].
  destruct (strip_prefix ")" (skip_ws s3)) as [s4|] eqn:E4; [|discriminate].
  intros Hend.
  assert (H6 : count_char "m" (match strip_prefix ";" (skip_ws s4) with
                                 | Some t => t | None => skip_ws s4 end) = 0).
  { destruct (skip_ws (match strip_prefix ";" (skip_ws s4) with
                       | Some t => t | None => skip_ws s4 end)) eqn:E6; [|discriminate].
    rewrite <- count_skip_ws, E6. reflexivity. }
  assert (H5 : count_char "m" s4 = 0).
  { rewrite <- count_skip_ws.
    destruct (strip_prefix ";" (skip_ws s4)) as [t|] eqn:E5; [|exact H6].
    rewrite (count_strip_prefix _ _ _ E5). exact H6. }
  apply count_strip_prefix in E2, E3, E4. rewrite count_skip_ws in E2, E3, E4.
  apply strip_prefix_app in E1. subst s.
  exists ("odifier" ++ s1)%string. split; [reflexivity|].
  cbn in E2, E3, E4 |- *. lia.
Qed.

Lemma capture_rewrite_app (x y : string) :
  1 <= count_char "m" y ->
  capture_rewrite (x ++ y) = (x ++ capture_rewrite y)%string.
Proof.
  intros Hy. induction x as [|c x IH]; [reflexivity|].
  cbn [append]. unfold capture_rewrite at 1; fold capture_rewrite.
  destruct (capture_at (String c (x ++ y))) eqn:E.
  - exfalso. apply capture_at_shape in E as [t [Ht Hc]].
    injection Ht as Hc0 Ht. subst t.
    assert (count_char "m" (x ++ y) >= count_char "m" y).
    { clear. induction x as [|a x IH]; cbn; lia. }
    lia.
  - rewrite IH. reflexivity.
Qed.
















Lemma skip_ws_blank (w : string) : blank w = true -> skip_ws w = EmptyString.
Proof.
  induction w as [|c w IH]; [reflexivity|].
  cbn [blank skip_ws]. intros H. apply andb_prop in H as [Hc Hw].
  rewrite Hc. apply IH, Hw.
Qed.

Lemma capture_rewrite_trailing_call (semi : bool) (ws : string) :
  blank ws = true -> capture_rewrite (trailing_call semi ws) = "return modifier(text);".
Proof.
  intros Hws. unfold trailing_call.
  destruct semi; unfold capture_rewrite, capture_at; cbn;
    rewrite (skip_ws_blank _ Hws); reflexivity.
Qed.


(** Statements outside the fragment give no result: a library that
    throws or redeclares the injected [text], a hook unit whose call is
    guarded by a braceless [if], and a comment line that a CR ends before
    a second call. *)
Lemma outside_fragment_no_result :
  let hook := unlines ["function modifier(text) { return { text }; }"; "modifier(text);"] in
  loadModifier "hello" (Some "throw 1;") (Some hook) = None /\
  loadModifier "hello" (Some "var text = 1;") (Some hook) = None /\
  loadModifier "hello" (Some EmptyString)
    (Some (unlines ["function modifier(text) { return { text }; }"; "if (false)";
                    "modifier(text);"])) = None /\
  loadModifier "hello" (Some EmptyString)
    (Some (unlines ["function modifier(text) { return { text }; }";
                    ("// c" ++ String (ascii_of_nat 13) "modifier(text);")%string;
                    "modifier(text);"]))
    = None.
Proof. cbv zeta. repeat split; vm_compute; reflexivity. Qed.

End LoaderProofs.

Module LoaderClaims.
Import Loader LoaderDefs LoaderProofs.




End LoaderClaims.

Module EmulatorProofs.
Import Parameters Emulator EmulatorDefs.

Lemma safeCallHook_eq (H : hooks) (name : hook_name) (arg : string) (st : emulator) :
  (forall err, snd (hook_of H name (world_ st) arg) = Threw err -> to_string err <> None) ->
  safeCallHook H name arg st =
    (set_world (fst (hook_of H name (world_ st) arg))
               (log_call (name, arg, history (world_ st)) st),
     Ok (accepted arg (snd (hook_of H name (world_ st) arg)))).
Proof.
  intros Hp. unfold safeCallHook.
  destruct (hook_of H name (world_ st) arg) as [w o] eqn:E. cbn [fst snd].
  destruct o as [v|e].
  - cbn [accepted]. destruct (truthy v); [|reflexivity].
    destruct (get_prop v "text"); reflexivity.
  - destruct (to_string e) eqn:Es; [reflexivity|].
    exfalso. apply (Hp e); [reflexivity|exact Es].
Qed.

Lemma processInput_eq (H : hooks) (mode rawText : string) (st : emulator) :
  throws_printable (inputModifier H) ->
  processInput H mode rawText st =
    (set_world (fst (inputModifier H (world_ st) rawText))
               (log_call (InputModifier, rawText, history (world_ st)) st),
     Ok (JStr (accepted rawText (snd (inputModifier H (world_ st) rawText))))).
Proof.
  intros Hp. unfold processInput, catch, bind, ret.
  rewrite (safeCallHook_eq H InputModifier) by apply Hp. reflexivity.
Qed.

Lemma processOutput_eq (H : hooks) (rawText : string) (st : emulator) :
  throws_printable (outputModifier H) ->
  processOutput H rawText st =
    (set_world (fst (outputModifier H (world_ st) rawText))
               (log_call (OutputModifier, rawText, history (world_ st)) st),
     Ok (JStr (accepted rawText (snd (outputModifier H (world_ st) rawText))))).
Proof.
  intros Hp. unfold processOutput, catch, bind, ret.
  rewrite (safeCallHook_eq H OutputModifier) by apply Hp. reflexivity.
Qed.

Lemma history_texts_app (h : list entry) (e : entry) :
  history_texts (h ++ [e]) =
    match history_texts h, to_string (text e) with
    | Some ss, Some s => Some (ss ++ [s])
    | _, _ => None
    end.
Proof.
  induction h as [|e' h IH]; cbn [app history_texts].
  - destruct (to_string (text e)); reflexivity.
  - rewrite IH. destruct (to_string (text e')), (history_texts h), (to_string (text e));
      reflexivity.
Qed.

(** ** One turn, step by step *)

Lemma handleInput_user_eq (H : hooks) (mode text : string) (st : emulator) (w1 : world) (o1 : outcome) :
  throws_printable (contextModifier H) ->
  currentSide st = User -> blank text = false ->
  inputModifier H (world_ st) text = (w1, o1) ->
  (forall err, o1 = Threw err -> to_string err <> None) ->
  let e := mkEntry "" (JStr (accepted text o1)) in
  let st2 := set_world (mkWorld (history w1 ++ [e]) (storyCards w1) (memory w1))
               (log_call (InputModifier, text, history (world_ st)) st) in
  handleInput H mode text st =
  match history_texts (history w1 ++ [e]) with
  | None => (st2, Throw conversion_error)
  | Some texts =>
      let raw := Loader.join Loader.nl texts in
      let w3 := mkWorld (history w1 ++ [e]) (storyCards w1)
                        (set_prop "frontMemory" (JStr "") (memory w1)) in
      let w4 := fst (contextModifier H w3 raw) in
      let st5 := set_side AI (set_world w4 (log_call (ContextModifier, raw, history w3)
                                                     (set_world w3 st2))) in
      (st5, Ok (Some (accepted raw (snd (contextModifier H w3 raw)))))
  end.
Proof.
  intros Hc Hs Hb E1 Ho1 e st2.
  unfold handleInput, processInput, processContext, catch, bind, get, ret, modify,
    push_history, set_memory, throw, renderer_updateMainView.
  rewrite Hb, Hs.
  rewrite (safeCallHook_eq H InputModifier) by (cbn [hook_of]; rewrite E1; exact Ho1).
  cbn [hook_of fst snd]. rewrite E1.
  unfold modify. cbn [fst snd world_ history set_world log_call currentSide set_side].
  fold e. 
  destruct (history_texts (history w1 ++ [e])) as [texts|] eqn:Ht; [|reflexivity].
  rewrite (safeCallHook_eq H ContextModifier) by (intros err; apply Hc).
  unfold bind, get, ret, throw.
  cbn [hook_of fst snd world_ history storyCards memory set_world log_call currentSide
       set_side calls].
  reflexivity.
Qed.

Lemma handleInput_ai_eq (H : hooks) (mode text : string) (st : emulator) (w1 : world) (o1 : outcome) :
  currentSide st = AI -> blank text = false ->
  outputModifier H (world_ st) text = (w1, o1) ->
  (forall err, o1 = Threw err -> to_string err <> None) ->
  let e := mkEntry "" (JStr (accepted text o1)) in
  let st3 := set_side User
               (set_world (mkWorld (history w1 ++ [e]) (storyCards w1) (memory w1))
                  (log_call (OutputModifier, text, history (world_ st)) st)) in
  handleInput H mode text st =
  match history_texts (history w1 ++ [e]) with
  | Some _ => (st3, Ok None)
  | None => (st3, Throw conversion_error)
  end.
Proof.
  intros Hs Hb E1 Ho1 e st3.
  unfold handleInput, processOutput, catch, bind, get, ret, modify,
    push_history, throw, renderer_updateMainView.
  rewrite Hb, Hs.
  rewrite (safeCallHook_eq H OutputModifier) by (cbn [hook_of]; rewrite E1; exact Ho1).
  cbn [hook_of fst snd]. rewrite E1.
  unfold modify, bind, get, ret, throw.
  cbn [fst snd world_ history storyCards memory set_world log_call currentSide set_side].
  fold e. destruct (history_texts (history w1 ++ [e])); reflexivity.
Qed.

Lemma handleInput_blank (H : hooks) (mode text : string) (st : emulator) :
  blank text = true -> handleInput H mode text st = (st, Ok None).
Proof. intros Hb. unfold handleInput, bind, get, ret. rewrite Hb. reflexivity. Qed.

Lemma extends_refl st : extends st st.
Proof. exists []. symmetry. apply app_nil_r. Qed.

Lemma extends_trans st1 st2 st3 : extends st1 st2 -> extends st2 st3 -> extends st1 st3.
Proof. intros [l1 E1] [l2 E2]. exists (l1 ++ l2). rewrite E2, E1. symmetry. apply app_assoc. Qed.

Lemma extends_same_history st st' :
  history (world_ st') = history (world_ st) -> extends st st'.
Proof. intros E. exists []. rewrite E. symmetry. apply app_nil_r. Qed.

Lemma extending_ret {A} (a : A) : extending (ret a).
Proof. intros st. apply extends_refl. Qed.

Lemma extending_throw {A} e : extending (@throw emulator A e).
Proof. intros st. apply extends_refl. Qed.

Lemma extending_get : extending (@get emulator).
Proof. intros st. apply extends_refl. Qed.

Lemma extending_bind {A B} (c : M emulator A) (k : A -> M emulator B) :
  extending c -> (forall a, extending (k a)) -> extending (bind c k).
Proof.
  intros Hc Hk st. unfold bind. specialize (Hc st).
  destruct (c st) as [s' [a|e]]; [|exact Hc].
  eapply extends_trans; [exact Hc|apply Hk].
Qed.

Lemma extending_catch {A} (c : M emulator A) (h : jsval -> M emulator A) :
  extending c -> (forall e, extending (h e)) -> extending (catch c h).
Proof.
  intros Hc Hh st. unfold catch. specialize (Hc st).
  destruct (c st) as [s' [a|e]]; [exact Hc|].
  eapply extends_trans; [exact Hc|apply Hh].
Qed.

Lemma extending_set_side s : extending (modify (set_side s)).
Proof. intros st. apply extends_same_history. reflexivity. Qed.

Lemma extending_set_memory k v : extending (set_memory k v).
Proof. intros st. apply extends_same_history. reflexivity. Qed.

Lemma extending_push_history e : extending (push_history e).
Proof. intros st. exists [e]. reflexivity. Qed.

Lemma extending_safeCallHook H name arg :
  history_extending (hook_of H name) -> extending (safeCallHook H name arg).
Proof.
  intros Hh st. destruct (Hh (world_ st) arg) as [l E].
  unfold safeCallHook.
  destruct (hook_of H name (world_ st) arg) as [w' o]. cbn [fst] in E.
  assert (Hx : extends st (set_world w' (log_call (name, arg, history (world_ st)) st)))
    by (exists l; exact E).
  destruct o as [v|e]; [destruct (truthy v); [destruct (get_prop v "text")|]|destruct (to_string e)];
    exact Hx.
Qed.

Lemma extending_process_handler e : extending (process_handler e).
Proof.
  unfold process_handler.
  destruct e; try destruct (to_string _); first [apply extending_ret | apply extending_throw].
Qed.

Lemma extending_renderer c : extending (renderer_updateMainView c).
Proof.
  unfold renderer_updateMainView. apply extending_bind; [apply extending_get|].
  intros st. destruct (currentSide st); [destruct (history_texts _)|];
    first [apply extending_ret | apply extending_throw].
Qed.

Create HintDb extending.
#[local] Hint Resolve extending_ret extending_throw extending_get extending_bind extending_catch
  extending_set_side extending_set_memory extending_push_history extending_safeCallHook
  extending_process_handler extending_renderer : extending.

Lemma extending_handleInput H mode text :
  (forall n, history_extending (hook_of H n)) -> extending (handleInput H mode text).
Proof.
  intros Hh. unfold handleInput. apply extending_bind; [apply extending_get|]. intros st.
  destruct (blank text); [apply extending_ret|].
  unfold processInput, processOutput, processContext.
  destruct (currentSide st); repeat (apply extending_bind || apply extending_catch || intros);
    try destruct (history_texts _); try destruct (currentSide _);
    auto with extending.
Qed.

Lemma extends_run H inputs st :
  (forall n, history_extending (hook_of H n)) -> extends st (run H inputs st).
Proof.
  intros Hh. revert st. induction inputs as [|[m t] inputs IH]; intros st; cbn [run fold_left].
  - apply extends_refl.
  - eapply extends_trans; [apply (extending_handleInput H m t Hh)|apply IH].
Qed.

Lemma processInput_total H mode t st :
  exists v, processInput H mode t st =
    (set_world (fst (inputModifier H (world_ st) t))
               (log_call (InputModifier, t, history (world_ st)) st), Ok v).
Proof.
  unfold processInput, catch, bind, ret, safeCallHook. cbn [hook_of].
  destruct (inputModifier H (world_ st) t) as [w o]. cbn [fst].
  destruct o as [v|e]; [destruct (truthy v); [destruct (get_prop v "text")|]|destruct (to_string e)];
    eexists; reflexivity.
Qed.

Lemma processOutput_total H t st :
  exists v, processOutput H t st =
    (set_world (fst (outputModifier H (world_ st) t))
               (log_call (OutputModifier, t, history (world_ st)) st), Ok v).
Proof.
  unfold processOutput, catch, bind, ret, safeCallHook. cbn [hook_of].
  destruct (outputModifier H (world_ st) t) as [w o]. cbn [fst].
  destruct o as [v|e]; [destruct (truthy v); [destruct (get_prop v "text")|]|destruct (to_string e)];
    eexists; reflexivity.
Qed.

Lemma processContext_history H st :
  history_preserving (contextModifier H) ->
  history (world_ (fst (processContext H st))) = history (world_ st).
Proof.
  intros Hp. unfold processContext, bind, get, throw.
  destruct (history_texts (history (world_ st))) as [texts|]; [|reflexivity].
  unfold set_memory, modify, safeCallHook. cbn [hook_of world_ set_world].
  set (w := {| history := _; storyCards := _; memory := _ |}).
  specialize (Hp w (Loader.join Loader.nl texts)).
  destruct (contextModifier H w (Loader.join Loader.nl texts)) as [w' o]. cbn [fst] in Hp.
  destruct o as [v|e]; [destruct (truthy v); [destruct (get_prop v "text")|]|destruct (to_string e)];
    cbn [fst world_ set_world]; rewrite Hp; reflexivity.
Qed.

Lemma renderer_state c st : fst (renderer_updateMainView c st) = st.
Proof.
  unfold renderer_updateMainView, bind, get, ret, throw.
  destruct (currentSide st); [destruct (history_texts _)|]; reflexivity.
Qed.

Lemma fst_bind {A B} (c : M emulator A) (k : A -> M emulator B) st :
  fst (bind c k st) = match c st with (s', Ok a) => fst (k a s') | (s', Throw _) => s' end.
Proof. unfold bind. destruct (c st) as [s' [a|e]]; reflexivity. Qed.

Lemma fst_bind_renderer {B} c (k : unit -> M emulator B) st :
  (forall s, fst (k tt s) = s) -> fst (bind (renderer_updateMainView c) k st) = st.
Proof.
  intros Hk. rewrite fst_bind. pose proof (renderer_state c st) as R.
  destruct (renderer_updateMainView c st) as [s' [[]|e]]; cbn [fst] in R |- *; subst s';
    [apply Hk|reflexivity].
Qed.

(** A user turn whose recorded history converts calls the input hook on
    the text, then the context hook on the join, whatever the context
    hook returns or throws. *)
Lemma handleInput_user_context_call (H : hooks) (mode text : string) (st : emulator)
    (w1 : world) (o1 : outcome) (texts : list string) :
  currentSide st = User -> blank text = false ->
  inputModifier H (world_ st) text = (w1, o1) ->
  (forall err, o1 = Threw err -> to_string err <> None) ->
  history_texts (history w1 ++ [mkEntry "" (JStr (accepted text o1))]) = Some texts ->
  calls (fst (handleInput H mode text st))
    = calls st ++ [(InputModifier, text, history (world_ st));
                   (ContextModifier, Loader.join Loader.nl texts,
                    history w1 ++ [mkEntry "" (JStr (accepted text o1))])].
Proof.
  intros Hs Hb E1 Ho1 Ht.
  unfold handleInput at 1. rewrite fst_bind. unfold get at 1. rewrite Hb, Hs.
  rewrite fst_bind.
  unfold processInput, catch, bind at 1, ret at 1.
  rewrite (safeCallHook_eq H InputModifier) by (cbn [hook_of]; rewrite E1; exact Ho1).
  cbn [hook_of fst snd]. rewrite E1. cbn [fst snd].
  rewrite fst_bind. unfold push_history at 1, modify at 1.
  cbn [fst snd world_ history storyCards memory set_world log_call].
  rewrite fst_bind. unfold processContext at 1. unfold bind at 1, get at 1.
  cbn [world_ history set_world log_call]. rewrite Ht.
  unfold bind at 1, set_memory, modify at 1.
  unfold safeCallHook at 1.
  cbn [hook_of world_ set_world log_call history storyCards memory].
  destruct (contextModifier H _ _) as [w3 o3].
  destruct o3 as [v|e];
    [destruct (truthy v); [destruct (get_prop v "text")|]|destruct (to_string e)];
    cbn [fst snd calls set_world log_call];
    try (rewrite fst_bind; unfold modify at 1; cbn [fst snd];
         rewrite fst_bind_renderer by reflexivity);
    cbn [calls set_side set_world log_call]; rewrite <- app_assoc; reflexivity.
Qed.

(** With hooks that leave [history] alone, a turn with a non-blank
    input appends exactly one entry, whatever the hooks return or throw. *)
Lemma handleInput_appends_one H mode text st :
  (forall n, history_preserving (hook_of H n)) -> blank text = false ->
  exists v, history (world_ (fst (handleInput H mode text st)))
            = history (world_ st) ++ [mkEntry "" v].
Proof.
  intros Hp Hb.
  assert (Hi : history_preserving (inputModifier H)) by exact (Hp InputModifier).
  assert (Ho : history_preserving (outputModifier H)) by exact (Hp OutputModifier).
  unfold handleInput at 1. rewrite fst_bind. unfold get at 1. rewrite Hb.
  destruct (currentSide st).
  - rewrite fst_bind.
    match goal with |- context [processInput H ?m text st] =>
      destruct (processInput_total H m text st) as [v E]; rewrite E end.
    exists v. rewrite fst_bind. unfold push_history at 1, modify at 1. rewrite fst_bind.
    set (st2 := set_world _ _).
    pose proof (processContext_history H st2 (Hp ContextModifier)) as Hc.
    destruct (processContext H st2) as [s3 [c|e]]; cbn [fst] in Hc.
    + rewrite fst_bind. unfold modify at 1. rewrite fst_bind_renderer by reflexivity.
      cbn [world_ set_side]. rewrite Hc. cbn. rewrite Hi. reflexivity.
    + rewrite Hc. cbn. rewrite Hi. reflexivity.
  - rewrite fst_bind. destruct (processOutput_total H text st) as [v E]. rewrite E. exists v.
    rewrite fst_bind. unfold push_history at 1, modify at 1. rewrite fst_bind.
    unfold modify at 1. rewrite fst_bind_renderer by reflexivity.
    cbn. rewrite Ho. reflexivity.
Qed.

(** A session of non-blank inputs, with hooks that leave [history] alone,
    appends one entry per input. *)
Lemma run_appends H inputs st :
  (forall n, history_preserving (hook_of H n)) ->
  forallb (fun mt => negb (blank (snd mt))) inputs = true ->
  exists es, history (world_ (run H inputs st)) = history (world_ st) ++ es
             /\ List.length es = List.length inputs.
Proof.
  intros Hp. revert st. induction inputs as [|[m t] inputs IH]; intros st Hin.
  - exists []. split; [symmetry; apply app_nil_r|reflexivity].
  - cbn [forallb snd] in Hin. apply andb_prop in Hin as [Ht Hin].
    cbn [run fold_left fst snd].
    destruct (handleInput_appends_one H m t st Hp) as [v Ev]; [now destruct (blank t)|].
    destruct (IH (fst (handleInput H m t st)) Hin) as [es [Es Hl]].
    exists (mkEntry "" v :: es). split.
    + unfold run in Es. rewrite Es, Ev, <- app_assoc. reflexivity.
    + cbn [List.length]. rewrite Hl. reflexivity.
Qed.

Lemma assoc_set_prop_other k k' v ps :
  k <> k' -> assoc k (set_prop k' v ps) = assoc k ps.
Proof.
  intros Hk. induction ps as [|[k0 v0] ps IH]; cbn [set_prop assoc].
  - destruct (String.eqb_spec k k'); [contradiction|reflexivity].
  - destruct (String.eqb_spec k' k0) as [->|Hne]; cbn [assoc].
    + destruct (String.eqb_spec k k0); [subst; contradiction|reflexivity].
    + rewrite IH. reflexivity.
Qed.

Lemma processContext_memory H st :
  memory_preserving (contextModifier H) ->
  frontMemory_reset_only (memory (world_ st)) (memory (world_ (fst (processContext H st)))).
Proof.
  intros Hp. unfold frontMemory_reset_only. unfold processContext, bind, get, throw.
  destruct (history_texts (history (world_ st))) as [texts|]; [right|left; reflexivity].
  unfold set_memory, modify, safeCallHook. cbn [hook_of world_ set_world].
  set (w := {| history := _; storyCards := _; memory := _ |}).
  specialize (Hp w (Loader.join Loader.nl texts)).
  destruct (contextModifier H w (Loader.join Loader.nl texts)) as [w' o]. cbn [fst] in Hp.
  destruct o as [v|e]; [destruct (truthy v); [destruct (get_prop v "text")|]|destruct (to_string e)];
    cbn [fst world_ set_world]; rewrite Hp; reflexivity.
Qed.

Lemma handleInput_memory H mode text st :
  (forall n, memory_preserving (hook_of H n)) ->
  frontMemory_reset_only (memory (world_ st)) (memory (world_ (fst (handleInput H mode text st)))).
Proof.
  intros Hp.
  assert (Hi : memory_preserving (inputModifier H)) by exact (Hp InputModifier).
  assert (Ho : memory_preserving (outputModifier H)) by exact (Hp OutputModifier).
  unfold handleInput at 1. rewrite fst_bind. unfold get at 1.
  destruct (blank text); [left; reflexivity|].
  destruct (currentSide st).
  - rewrite fst_bind.
    match goal with |- context [processInput H ?m text st] =>
      destruct (processInput_total H m text st) as [v E]; rewrite E end.
    rewrite fst_bind. unfold push_history at 1, modify at 1. rewrite fst_bind.
    set (st2 := set_world _ _).
    assert (E2 : memory (world_ st2) = memory (world_ st)) by (cbn; apply Hi).
    pose proof (processContext_memory H st2 (Hp ContextModifier)) as Hc.
    rewrite E2 in Hc.
    destruct (processContext H st2) as [s3 [c|e]]; cbn [fst] in Hc; [|exact Hc].
    rewrite fst_bind. unfold modify at 1. rewrite fst_bind_renderer by reflexivity.
    exact Hc.
  - rewrite fst_bind. destruct (processOutput_total H text st) as [v E]. rewrite E.
    rewrite fst_bind. unfold push_history at 1, modify at 1. rewrite fst_bind.
    unfold modify at 1. rewrite fst_bind_renderer by reflexivity.
    left. cbn. apply Ho.
Qed.

Lemma id_hook_printable n : throws_printable (hook_of id_hooks n).
Proof. destruct n; intros w s e He; discriminate He. Qed.

Lemma id_hook_preserving n : history_preserving (hook_of id_hooks n).
Proof. destruct n; intros w s; reflexivity. Qed.

Lemma id_hook_memory_preserving n : memory_preserving (hook_of id_hooks n).
Proof. destruct n; intros w s; reflexivity. Qed.

Lemma preserving_extending h : history_preserving h -> history_extending h.
Proof. intros Hp w s. exists []. rewrite Hp. symmetry. apply app_nil_r. Qed.

End EmulatorProofs.

Module HookResultClaims.
Import Parameters Emulator EmulatorDefs.

(** C7: when the value a hook hands back is not an object with a
    string-typed [text] property ([{text: 42}], [{}], a primitive, ...),
    [safeCallHook] returns the original argument, throws nothing, and
    leaves the shared objects as the hook left them. *)
Theorem safeCallHook_invalid_shape_falls_back (H : hooks) (name : hook_name)
    (arg : string) (st : emulator) (w' : world) (v : jsval) :
  hook_of H name (world_ st) arg = (w', Returned v) ->
  ~ (exists ps s, v = JObj ps /\ assoc "text" ps = Some (JStr s)) ->
  safeCallHook H name arg st
    = (set_world w' (log_call (name, arg, history (world_ st)) st), Ok arg).
Proof.
  intros Hh Hshape. unfold safeCallHook. rewrite Hh.
  destruct v as [| |b|z|s|d|nm msg|ps]; cbn [truthy get_prop]; try reflexivity.
  - destruct b; reflexivity.
  - destruct (negb (Z.eqb z 0)); reflexivity.
  - destruct (negb (String.eqb s "")); reflexivity.
  - destruct (assoc "text" ps) as [x|] eqn:E; [|reflexivity].
    destruct x; try reflexivity.
    exfalso. apply Hshape. eauto.
Qed.

Lemma safeCallHook_invalid_shape_falls_back_witness :
  safeCallHook (mkHooks text42_hook id_hook id_hook) InputModifier "hello" new_emulator
    = (set_world (world_ new_emulator)
         (log_call (InputModifier, "hello", history (world_ new_emulator)) new_emulator),
       Ok "hello").
Proof.
  apply (safeCallHook_invalid_shape_falls_back (mkHooks text42_hook id_hook id_hook)
           InputModifier "hello" new_emulator (world_ new_emulator)
           (JObj [("text", JNum 42)])).
  - reflexivity.
  - intros [ps [s [E Ht]]]. injection E as <-. vm_compute in Ht. discriminate.
Defined.

(** C8, counterexample: a hook unit whose [modifier] returns the plain
    string "changed" hands that string back from the load, but
    [safeCallHook] does not accept it: the effective output is the
    original input "hello", and the turn records "hello". *)
Lemma plain_string_result_not_accepted :
  Loader.loadModifier "hello" (Some EmptyString) (Some string_hook_source)
    = Some (1, Ok (JStr "changed")) /\
  snd (safeCallHook (mkHooks string_hook id_hook id_hook) InputModifier "hello" new_emulator)
    = Ok "hello" /\
  history (world_ (fst (handleInput (mkHooks string_hook id_hook id_hook) "say" "hello"
                                    new_emulator)))
    = [start_entry; mkEntry "" (JStr "hello")].
Proof. repeat split; vm_compute; reflexivity. Qed.

(** C8, as amended: a hook's value is accepted only when it is an object
    whose [text] property is a string, and then that string is the
    effective output; any other value, a plain string included, makes the
    effective output the original argument. *)
Theorem safeCallHook_accepts_only_text_objects (H : hooks) (name : hook_name)
    (arg : string) (st : emulator) (w' : world) (v : jsval) :
  hook_of H name (world_ st) arg = (w', Returned v) ->
  snd (safeCallHook H name arg st)
    = Ok (match v with
          | JObj ps => match assoc "text" ps with Some (JStr s) => s | _ => arg end
          | _ => arg
          end).
Proof.
  intros Hh. unfold safeCallHook. rewrite Hh.
  destruct v as [| |b|z|s|d|nm msg|ps]; cbn [truthy get_prop snd]; try reflexivity.
  - destruct b; reflexivity.
  - destruct (negb (Z.eqb z 0)); reflexivity.
  - destruct (negb (String.eqb s "")); reflexivity.
  - destruct (assoc "text" ps) as [x|]; [destruct x|]; reflexivity.
Qed.

Lemma safeCallHook_accepts_only_text_objects_witness :
  snd (safeCallHook (mkHooks changed_hook id_hook id_hook) InputModifier "hello" new_emulator)
    = Ok "changed" /\
  snd (safeCallHook (mkHooks string_hook id_hook id_hook) InputModifier "hello" new_emulator)
    = Ok "hello".
Proof.
  split.
  - apply (safeCallHook_accepts_only_text_objects (mkHooks changed_hook id_hook id_hook)
             InputModifier "hello" new_emulator
             (world_ new_emulator) (JObj [("text", JStr "changed")])).
    reflexivity.
  - apply (safeCallHook_accepts_only_text_objects (mkHooks string_hook id_hook id_hook)
             InputModifier "hello" new_emulator (world_ new_emulator) (JStr "changed")).
    reflexivity.
Defined.

End HookResultClaims.

Module SessionClaims.
Import Parameters Emulator EmulatorDefs EmulatorProofs.

(** C10, counterexample: hooks are handed the shared [history] array; an
    input hook that empties it leaves, after the first turn, a history
    whose only entry is the turn's input, the session-start entry gone. *)
Lemma history_cleared_by_hook :
  history (world_ (run (mkHooks clear_hook id_hook id_hook) [("say", "hello")] new_emulator))
    = [mkEntry "" (JStr "hello")].
Proof. vm_compute. reflexivity. Qed.

(** C10, as amended: when no hook removes or reorders existing history
    entries (hooks may only append), every state a session reaches from
    the initialised emulator has the session-start entry first; when the
    hooks leave history alone, the first turn with a non-blank input
    makes it the second entry of a two-entry history. *)
Theorem start_entry_stays_first (H : hooks) (inputs : list (string * string)) :
  (forall n, history_extending (hook_of H n)) ->
  (exists l, history (world_ (run H inputs new_emulator)) = start_entry :: l) /\
  ((forall n, history_preserving (hook_of H n)) ->
   forall mode text, blank text = false ->
   exists v, history (world_ (fst (handleInput H mode text new_emulator)))
             = [start_entry; mkEntry "" v]).
Proof.
  intros Hx. split.
  - destruct (extends_run H inputs new_emulator Hx) as [l E].
    exists l. rewrite E. reflexivity.
  - intros Hp mode text Hb.
    destruct (handleInput_appends_one H mode text new_emulator Hp Hb) as [v E].
    exists v. rewrite E. reflexivity.
Qed.

Lemma start_entry_stays_first_witness :
  (exists l, history (world_ (run id_hooks [("say", "hello"); ("", "done")] new_emulator))
             = start_entry :: l) /\
  (exists v, history (world_ (fst (handleInput id_hooks "say" "hello" new_emulator)))
             = [start_entry; mkEntry "" v]).
Proof.
  destruct (start_entry_stays_first id_hooks [("say", "hello"); ("", "done")]) as [H1 H2].
  - intros n. apply preserving_extending. apply id_hook_preserving.
  - split; [exact H1|]. apply H2; [apply id_hook_preserving|reflexivity].
Defined.

(** C4, counterexample: after a fresh session's first user turn with the
    identity hooks, the context hook's output is the value [handleInput]
    hands to the renderer, and [state.memory] has no [transformedContext]
    property. *)
Lemma transformedContext_never_stored :
  snd (handleInput id_hooks "say" "hello" new_emulator)
    = Ok (Some ("=== New Session Started ===" ++ Loader.nl ++ "hello")%string) /\
  assoc "transformedContext" (memory (world_ (fst (handleInput id_hooks "say" "hello" new_emulator))))
    = None.
Proof. split; vm_compute; reflexivity. Qed.

(** C4, as amended: the engine stores the context hook's output nowhere
    in [state.memory].  With hooks that leave [state.memory] alone, a call
    of [handleInput] changes [state.memory] at most by setting
    [frontMemory] to the empty string, so [transformedContext] (and every
    other property but [frontMemory]) keeps the value it had before. *)
Theorem context_output_not_stored (H : hooks) (mode text : string) (st : emulator) :
  (forall n, memory_preserving (hook_of H n)) ->
  frontMemory_reset_only (memory (world_ st))
                         (memory (world_ (fst (handleInput H mode text st)))) /\
  assoc "transformedContext" (memory (world_ (fst (handleInput H mode text st))))
    = assoc "transformedContext" (memory (world_ st)).
Proof.
  intros Hp. pose proof (handleInput_memory H mode text st Hp) as Hm. split; [exact Hm|].
  destruct Hm as [E|E]; rewrite E; [reflexivity|].
  apply assoc_set_prop_other. discriminate.
Qed.

Lemma context_output_not_stored_witness :
  frontMemory_reset_only (memory (world_ new_emulator))
    (memory (world_ (fst (handleInput id_hooks "say" "hello" new_emulator)))) /\
  assoc "transformedContext" (memory (world_ (fst (handleInput id_hooks "say" "hello" new_emulator))))
    = assoc "transformedContext" (memory (world_ new_emulator)).
Proof. apply (context_output_not_stored id_hooks "say" "hello" new_emulator id_hook_memory_preserving). Defined.

(** C2, counterexample: a hook that throws a Symbol makes the handler's
    message [`Hook ${name} threw: ${err}`] itself throw a TypeError.  From
    the context hook that TypeError escapes [handleInput] and [currentSide]
    stays "user"; from the input hook it is caught by [processInput],
    which then returns [undefined], and the recorded text is [undefined],
    not the input. *)
Lemma symbol_throw_not_contained :
  snd (handleInput (mkHooks id_hook symbol_hook id_hook) "say" "hello" new_emulator)
    = Throw conversion_error /\
  currentSide (fst (handleInput (mkHooks id_hook symbol_hook id_hook) "say" "hello" new_emulator))
    = User /\
  history (world_ (fst (handleInput (mkHooks symbol_hook id_hook id_hook) "say" "hello"
                                    new_emulator)))
    = [start_entry; mkEntry "" JUndef].
Proof. repeat split; vm_compute; reflexivity. Qed.

(** C2, beside the defect: the containment does hold for every thrown
    value but a Symbol.  When every hook throws only values that convert
    to a string (an [Error], as a failed load throws, a string, a number,
    ...) and leaves [history] alone, a call of
    [handleInput] with non-blank text on a history whose texts all
    convert returns normally, appends exactly one entry and flips
    [currentSide]; a first hook that throws contributes the original text
    unchanged, and on the user's side a context hook that throws makes
    the context the raw one. *)
Theorem hook_failure_contained (H : hooks) (mode text : string) (st : emulator) :
  (forall n, throws_printable (hook_of H n)) ->
  (forall n, history_preserving (hook_of H n)) ->
  history_texts (history (world_ st)) <> None ->
  blank text = false ->
  let st' := fst (handleInput H mode text st) in
  let r := snd (handleInput H mode text st) in
  (exists c, r = Ok c) /\
  currentSide st' = flip (currentSide st) /\
  (exists e, history (world_ st') = history (world_ st) ++ [e] /\
     (forall err, snd (hook_of H (first_hook (currentSide st)) (world_ st) text) = Threw err ->
                  e = mkEntry "" (JStr text))) /\
  (currentSide st = User ->
   exists texts, history_texts (history (world_ st')) = Some texts /\
     let raw := Loader.join Loader.nl texts in
     let w1 := fst (inputModifier H (world_ st) text) in
     let w3 := mkWorld (history (world_ st')) (storyCards w1)
                       (set_prop "frontMemory" (JStr "") (memory w1)) in
     forall err, snd (contextModifier H w3 raw) = Threw err -> r = Ok (Some raw)).
Proof.
  intros Hp Hh Hst Hb st' r.
  destruct (history_texts (history (world_ st))) as [ts|] eqn:Ets; [|contradiction].
  destruct (currentSide st) eqn:Hs.
  - destruct (inputModifier H (world_ st) text) as [w1 o1] eqn:E1.
    assert (Hw1 : history w1 = history (world_ st)).
    { pose proof (Hh InputModifier (world_ st) text) as X. cbn [hook_of] in X.
      rewrite E1 in X. exact X. }
    assert (Ho1 : forall err, o1 = Threw err -> to_string err <> None).
    { intros err Eo. apply (Hp InputModifier (world_ st) text). cbn [hook_of].
      rewrite E1. cbn [snd]. rewrite Eo. reflexivity. }
    pose proof (handleInput_user_eq H mode text st w1 o1 (Hp ContextModifier) Hs Hb E1 Ho1)
      as Eq.
    cbv zeta in Eq.
    set (e := mkEntry "" (JStr (accepted text o1))) in Eq.
    assert (Et : history_texts (history w1 ++ [e]) = Some (ts ++ [accepted text o1])).
    { rewrite history_texts_app, Hw1, Ets. reflexivity. }
    rewrite Et in Eq.
    set (w3 := mkWorld (history w1 ++ [e]) (storyCards w1)
                       (set_prop "frontMemory" (JStr "") (memory w1))) in Eq.
    set (raw := Loader.join Loader.nl (ts ++ [accepted text o1])) in Eq.
    assert (Hw4 : history (fst (contextModifier H w3 raw)) = history w1 ++ [e])
      by apply (Hh ContextModifier).
    subst st' r. rewrite Eq. cbn [fst snd world_ currentSide set_side set_world].
    rewrite Hw4, Hw1. split; [eexists; reflexivity|]. split; [reflexivity|]. split.
    + exists e. split; [reflexivity|].
      intros err Ee. cbn [first_hook hook_of] in Ee. rewrite E1 in Ee. cbn [snd] in Ee.
      subst o1 e. reflexivity.
    + intros _. exists (ts ++ [accepted text o1]). split.
      * try rewrite <- Hw1. exact Et.
      * cbv zeta. intros err Ee. rewrite <- Hw1 in Ee. fold w3 raw in Ee. rewrite Ee.
        reflexivity.
  - destruct (outputModifier H (world_ st) text) as [w1 o1] eqn:E1.
    assert (Hw1 : history w1 = history (world_ st)).
    { pose proof (Hh OutputModifier (world_ st) text) as X. cbn [hook_of] in X.
      rewrite E1 in X. exact X. }
    assert (Ho1 : forall err, o1 = Threw err -> to_string err <> None).
    { intros err Eo. apply (Hp OutputModifier (world_ st) text). cbn [hook_of].
      rewrite E1. cbn [snd]. rewrite Eo. reflexivity. }
    pose proof (handleInput_ai_eq H mode text st w1 o1 Hs Hb E1 Ho1) as Eq.
    cbv zeta in Eq.
    set (e := mkEntry "" (JStr (accepted text o1))) in Eq.
    assert (Et : history_texts (history w1 ++ [e]) = Some (ts ++ [accepted text o1])).
    { rewrite history_texts_app, Hw1, Ets. reflexivity. }
    rewrite Et in Eq.
    subst st' r. rewrite Eq. cbn [fst snd world_ currentSide set_side set_world].
    rewrite Hw1. split; [eexists; reflexivity|]. split; [reflexivity|]. split.
    + exists e. split; [reflexivity|].
      intros err Ee. cbn [first_hook hook_of] in Ee. rewrite E1 in Ee. cbn [snd] in Ee.
      subst o1 e. reflexivity.
    + discriminate.
Qed.

Lemma hook_failure_contained_witness :
  let st' := fst (handleInput failing_hooks "say" "hello" new_emulator) in
  let r := snd (handleInput failing_hooks "say" "hello" new_emulator) in
  (exists c, r = Ok c) /\
  currentSide st' = flip (currentSide new_emulator) /\
  (exists e, history (world_ st') = history (world_ new_emulator) ++ [e] /\
     (forall err, snd (hook_of failing_hooks (first_hook (currentSide new_emulator))
                         (world_ new_emulator) "hello") = Threw err ->
                  e = mkEntry "" (JStr "hello"))) /\
  (currentSide new_emulator = User ->
   exists texts, history_texts (history (world_ st')) = Some texts /\
     let raw := Loader.join Loader.nl texts in
     let w1 := fst (inputModifier failing_hooks (world_ new_emulator) "hello") in
     let w3 := mkWorld (history (world_ st')) (storyCards w1)
                       (set_prop "frontMemory" (JStr "") (memory w1)) in
     forall err, snd (contextModifier failing_hooks w3 raw) = Threw err -> r = Ok (Some raw)).
Proof.
  apply (hook_failure_contained failing_hooks "say" "hello" new_emulator).
  - intros n w s e He. destruct n; cbn in He; injection He as <-; discriminate.
  - intros n w s. destruct n; reflexivity.
  - vm_compute. discriminate.
  - reflexivity.
Defined.

(** C1, counterexample: after one turn of a fresh session with the
    identity hooks, the context is not the join of the first entry's
    text: history already held the session-start entry, and the context
    covers both entries. *)
Lemma context_not_first_n_entries :
  snd (handleInput id_hooks "say" "hello" new_emulator)
    = Ok (Some ("=== New Session Started ===" ++ Loader.nl ++ "hello")%string) /\
  option_map (Loader.join Loader.nl)
    (history_texts (firstn 1 (history (world_ (fst (handleInput id_hooks "say" "hello"
                                                       new_emulator))))))
    = Some "=== New Session Started ===" /\
  ("=== New Session Started ===" ++ Loader.nl ++ "hello")%string <> "=== New Session Started ===".
Proof.
  split; [vm_compute; reflexivity|]. split; [vm_compute; reflexivity|].
  intros E. apply (f_equal String.length) in E. vm_compute in E. discriminate E.
Qed.

(** C1, as amended: on a user turn the argument of the context hook is
    the newline join of the texts of the whole history as it stands once
    the turn's entry is appended: the entries present before the input
    hook ran (as that hook left them), then the new entry; the string is
    built before the context hook runs, whatever that hook then returns
    or throws.  And a session
    of N non-blank turns, with hooks leaving history alone, holds N + 1
    entries, the session-start entry first. *)
Theorem context_is_join_of_whole_history (H : hooks) (mode input : string) (st : emulator)
    (w1 : world) (o1 : outcome) (texts : list string) :
  currentSide st = User -> blank input = false ->
  inputModifier H (world_ st) input = (w1, o1) ->
  (forall err, o1 = Threw err -> to_string err <> None) ->
  history_texts (history w1 ++ [mkEntry "" (JStr (accepted input o1))]) = Some texts ->
  calls (fst (handleInput H mode input st))
    = calls st ++ [(InputModifier, input, history (world_ st));
                   (ContextModifier, Loader.join Loader.nl texts,
                    history w1 ++ [mkEntry "" (JStr (accepted input o1))])] /\
  (forall inputs, (forall n, history_preserving (hook_of H n)) ->
   forallb (fun mt => negb (blank (snd mt))) inputs = true ->
   exists es, history (world_ (run H inputs new_emulator)) = start_entry :: es /\
              List.length es = List.length inputs).
Proof.
  intros Hs Hb E1 Ho1 Ht. split.
  - exact (handleInput_user_context_call H mode input st w1 o1 texts Hs Hb E1 Ho1 Ht).
  - intros inputs Hp Hin.
    destruct (run_appends H inputs new_emulator Hp Hin) as [es [Es Hl]].
    exists es. split; [rewrite Es; reflexivity|exact Hl].
Qed.

Lemma context_is_join_of_whole_history_witness :
  calls (fst (handleInput id_hooks "say" "hello" new_emulator))
    = calls new_emulator
      ++ [(InputModifier, "hello", history (world_ new_emulator));
          (ContextModifier, Loader.join Loader.nl ["=== New Session Started ==="; "hello"],
           history (world_ new_emulator)
           ++ [mkEntry "" (JStr (accepted "hello" (Returned (JObj [("text", JStr "hello")]))))])] /\
  (forall inputs, (forall n, history_preserving (hook_of id_hooks n)) ->
   forallb (fun mt => negb (blank (snd mt))) inputs = true ->
   exists es, history (world_ (run id_hooks inputs new_emulator)) = start_entry :: es /\
              List.length es = List.length inputs).
Proof.
  apply (context_is_join_of_whole_history id_hooks "say" "hello" new_emulator
           (world_ new_emulator) (Returned (JObj [("text", JStr "hello")]))
           ["=== New Session Started ==="; "hello"]).
  - reflexivity.
  - reflexivity.
  - reflexivity.
  - intros err E. discriminate E.
  - vm_compute. reflexivity.
Defined.

(** C3, counterexample: in a fresh session with the identity hooks,
    [handleInput("say", "hello")] leaves two entries, the session-start
    entry then an entry with mode "" (not "say"), so history is not
    [[{mode: "say", text: "hello"}]], and the context is not "hello". *)
Lemma scenario1_history_differs :
  history (world_ (fst (handleInput id_hooks "say" "hello" new_emulator)))
    = [start_entry; mkEntry "" (JStr "hello")] /\
  [start_entry; mkEntry "" (JStr "hello")] <> [mkEntry "say" (JStr "hello")] /\
  snd (handleInput id_hooks "say" "hello" new_emulator)
    = Ok (Some ("=== New Session Started ===" ++ Loader.nl ++ "hello")%string).
Proof. split; [vm_compute; reflexivity|]. split; [discriminate|vm_compute; reflexivity]. Qed.

(** C3, as amended (the entry's mode left aside): on a user turn with
    non-blank text, the entry appended right after the input hook has as
    text the input hook's effective output; in a fresh session with the
    identity hooks, [handleInput("say", "hello")] leaves the history
    [session-start entry; entry with text "hello"], [currentSide] "ai"
    and the context "=== New Session Started ===\nhello". *)
Theorem user_turn_records_input_result (H : hooks) (mode input : string) (st : emulator)
    (w1 : world) (o1 : outcome) :
  currentSide st = User -> blank input = false ->
  inputModifier H (world_ st) input = (w1, o1) ->
  (forall err, o1 = Threw err -> to_string err <> None) ->
  throws_printable (contextModifier H) -> history_preserving (contextModifier H) ->
  (exists m, history (world_ (fst (handleInput H mode input st)))
             = history w1 ++ [mkEntry m (JStr (accepted input o1))]) /\
  (exists e, history (world_ (fst (handleInput id_hooks "say" "hello" new_emulator)))
             = [start_entry; e] /\ text e = JStr "hello") /\
  currentSide (fst (handleInput id_hooks "say" "hello" new_emulator)) = AI /\
  snd (handleInput id_hooks "say" "hello" new_emulator)
    = Ok (Some ("=== New Session Started ===" ++ Loader.nl ++ "hello")%string).
Proof.
  intros Hs Hb E1 Ho1 Hc Hp. split; [|split; [|split]].
  - exists "". rewrite (handleInput_user_eq H mode input st w1 o1 Hc Hs Hb E1 Ho1).
    cbv zeta.
    destruct (history_texts _); [|reflexivity].
    cbn [fst world_ set_side set_world]. apply Hp.
  - exists (mkEntry "" (JStr "hello")). split; [vm_compute|]; reflexivity.
  - vm_compute. reflexivity.
  - vm_compute. reflexivity.
Qed.

Lemma user_turn_records_input_result_witness :
  (exists m, history (world_ (fst (handleInput id_hooks "say" "hello" new_emulator)))
             = history (world_ new_emulator)
               ++ [mkEntry m (JStr (accepted "hello" (Returned (JObj [("text", JStr "hello")]))))]) /\
  (exists e, history (world_ (fst (handleInput id_hooks "say" "hello" new_emulator)))
             = [start_entry; e] /\ text e = JStr "hello") /\
  currentSide (fst (handleInput id_hooks "say" "hello" new_emulator)) = AI /\
  snd (handleInput id_hooks "say" "hello" new_emulator)
    = Ok (Some ("=== New Session Started ===" ++ Loader.nl ++ "hello")%string).
Proof.
  apply (user_turn_records_input_result id_hooks "say" "hello" new_emulator
           (world_ new_emulator) (Returned (JObj [("text", JStr "hello")]))).
  - reflexivity.
  - reflexivity.
  - reflexivity.
  - intros err E. discriminate E.
  - exact (id_hook_printable ContextModifier).
  - exact (id_hook_preserving ContextModifier).
Defined.

End SessionClaims.

(* ================================================================== *)
(** * Further properties of the code                                   *)
(* ================================================================== *)

Module StoryCardExtras.
Import Parameters CardDefs StoryCards StoryCardProofs.

Lemma ids_from_app n l1 l2 :
  ids_from n (l1 ++ l2) = ids_from n l1 && ids_from (n + List.length l1) l2.
Proof.
  revert n; induction l1 as [|c l1 IH]; intros n; cbn.
  - rewrite Nat.add_0_r. reflexivity.
  - rewrite IH, andb_assoc. replace (S n + List.length l1) with (n + S (List.length l1)) by lia.
    reflexivity.
Qed.

Lemma ids_from_nth n cards :
  ids_from n cards = true <->
  forall i c, nth_error cards i = Some c -> id c = Z.of_nat (n + i).
Proof.
  revert n; induction cards as [|c cs IH]; intros n; cbn.
  - split; [intros _ [|i] c' H; discriminate|reflexivity].
  - rewrite andb_true_iff, Z.eqb_eq, IH. split.
    + intros [H0 Hs] [|i] c' Hi; cbn in Hi.
      * injection Hi as <-. rewrite H0. f_equal. lia.
      * rewrite (Hs i c' Hi). f_equal. lia.
    + intros Hall. split.
      * rewrite (Hall 0 c eq_refl). f_equal. lia.
      * intros i c' Hi. rewrite (Hall (S i) c' Hi). f_equal. lia.
Qed.

Lemma update_range index (cards : list card) :
  (0 <= index < Z.of_nat (List.length cards))%Z ->
  ((index <? 0)%Z || (index >=? Z.of_nat (List.length cards))%Z) = false.
Proof.
  intros H. apply orb_false_iff. split; [apply Z.ltb_ge; lia|].
  rewrite Z.geb_leb. apply Z.leb_gt. lia.
Qed.

Lemma update_out_of_range index (cards : list card) :
  (index < 0 \/ index >= Z.of_nat (List.length cards))%Z ->
  ((index <? 0)%Z || (index >=? Z.of_nat (List.length cards))%Z) = true.
Proof.
  intros H. apply orb_true_iff.
  destruct H; [left; apply Z.ltb_lt | right; apply Z.geb_le]; lia.
Qed.

Lemma nth_error_replace {A} (l : list A) (n : nat) (x : A) j :
  n < List.length l ->
  nth_error (firstn n l ++ x :: skipn (S n) l) j =
    if Nat.eqb j n then Some x else nth_error l j.
Proof.
  revert n j; induction l as [|y l IH]; intros n j Hn; cbn in Hn; [lia|].
  destruct n as [|n], j as [|j]; cbn [firstn skipn app nth_error Nat.eqb]; try reflexivity.
  apply IH. lia.
Qed.

Lemma length_replace {A} (l : list A) (n : nat) (x : A) :
  n < List.length l -> List.length (firstn n l ++ x :: skipn (S n) l) = List.length l.
Proof.
  revert n; induction l as [|y l IH]; intros n Hn; cbn in Hn; [lia|].
  destruct n as [|n]; cbn [firstn skipn app List.length]; [reflexivity|].
  rewrite IH by lia. reflexivity.
Qed.

(** X1: [updateStoryCard(index, ...)] throws the [Error] "Story card does not
    exist" and leaves the registry as it is when [index < 0] or
    [index >= length]; otherwise it keeps the registry's length, puts the
    record [{id: index, keys, entry, type}] at position [index], and
    leaves every other position as it was. *)
Theorem updateStoryCard_replaces_in_place :
  forall (cards : list card) (index : Z) (keys' : list string) (entry' type' : string),
    ((index < 0 \/ index >= Z.of_nat (List.length cards))%Z ->
     updateStoryCard index keys' entry' type' cards
       = (cards, Throw (JErr "Error" "Story card does not exist"))) /\
    ((0 <= index < Z.of_nat (List.length cards))%Z ->
     exists cards',
       updateStoryCard index keys' entry' type' cards = (cards', Ok tt) /\
       List.length cards' = List.length cards /\
       nth_error cards' (Z.to_nat index) = Some (mkCard index keys' entry' type') /\
       forall j, j <> Z.to_nat index -> nth_error cards' j = nth_error cards j).
Proof.
  intros cards index keys' entry' type'. unfold updateStoryCard. split.
  - intros H. rewrite update_out_of_range by exact H. reflexivity.
  - intros H. rewrite update_range by exact H.
    eexists; split; [reflexivity|].
    split; [apply length_replace; lia|]. split.
    + rewrite nth_error_replace by lia. rewrite Nat.eqb_refl. reflexivity.
    + intros j Hj. rewrite nth_error_replace by lia.
      apply Nat.eqb_neq in Hj. rewrite Hj. reflexivity.
Qed.

(** X2: Invariant: in a registry where every card's [id] is its position,
    [addStoryCard] and [updateStoryCard] keep every card's [id] equal to
    its position, whatever they return or throw. *)
Theorem ids_in_place_preserved (cards : list card) :
  ids_from 0 cards = true ->
  (forall keys' entry' type',
      ids_from 0 (fst (addStoryCard keys' entry' type' cards)) = true) /\
  (forall index keys' entry' type',
      ids_from 0 (fst (updateStoryCard index keys' entry' type' cards)) = true).
Proof.
  intros Hc. split.
  - intros keys' entry' type'. unfold addStoryCard.
    destruct (existsb _ cards); cbn [fst]; [exact Hc|].
    rewrite ids_from_app, Hc. cbn. rewrite Z.eqb_refl. reflexivity.
  - intros index keys' entry' type'. unfold updateStoryCard.
    destruct ((index <? 0)%Z || (index >=? Z.of_nat (List.length cards))%Z) eqn:E;
      cbn [fst]; [exact Hc|].
    apply orb_false_iff in E as [E1 E2]. apply Z.ltb_ge in E1.
    rewrite Z.geb_leb, Z.leb_gt in E2.
    apply ids_from_nth. intros i c Hi.
    rewrite nth_error_replace in Hi by lia.
    destruct (Nat.eqb_spec i (Z.to_nat index)) as [->|Hne].
    + injection Hi as <-. cbn. lia.
    + apply ids_from_nth with (i := i) (c := c) in Hc; [exact Hc|exact Hi].
Qed.

Lemma ids_in_place_preserved_witness :
  ids_from 0 [StoryCardDefs.card_first; StoryCardDefs.card_second] = true /\
  ids_from 0 (fst (updateStoryCard 1 ["c"] "third" "general"
                     [StoryCardDefs.card_first; StoryCardDefs.card_second])) = true.
Proof.
  split; [reflexivity|].
  apply (ids_in_place_preserved [StoryCardDefs.card_first; StoryCardDefs.card_second]).
  reflexivity.
Defined.

(** X3: [addStoryCard] keeps the key sequences of the registry pairwise
    distinct; [updateStoryCard] does not check the keys: overwriting the
    card at position 1 of a registry with keys [["a"]] and [["b"]] with
    the keys [["a"]] leaves two cards with the same keys. *)
Theorem distinct_keys_kept_by_add_only :
  (forall (cards : list card) keys' entry' type',
      NoDup (map keys cards) ->
      NoDup (map keys (fst (addStoryCard keys' entry' type' cards)))) /\
  NoDup (map keys [StoryCardDefs.card_first; StoryCardDefs.card_second]) /\
  ~ NoDup (map keys (fst (updateStoryCard 1 ["a"] "second" "general"
                             [StoryCardDefs.card_first; StoryCardDefs.card_second]))).
Proof.
  split; [|split].
  - intros cards keys' entry' type' Hnd. unfold addStoryCard.
    destruct (existsb _ cards) eqn:E; cbn [fst]; [exact Hnd|].
    rewrite map_app. cbn [map keys].
    apply NoDup_app; [exact Hnd|constructor; [intros []|constructor]|].
    intros ks Hin [Heq|[]]. subst ks.
    apply in_map_iff in Hin as [c [Hk Hin]].
    assert (Hx : existsb (fun c => String.eqb (json_stringify_keys (keys c))
                                     (json_stringify_keys keys')) cards = true).
    { apply key_clash_iff. exists c. split; assumption. }
    rewrite Hx in E. discriminate.
  - repeat constructor; cbn; intuition discriminate.
  - cbn. intros Hnd. inversion Hnd as [|x l Hn _]. apply Hn. left. reflexivity.
Qed.

(** X4: Adding a card and then removing the index [addStoryCard] returned
    gives back the registry as it was; in between, that index holds the
    new card, its [id] being the index. *)
Theorem addStoryCard_removeStoryCard_roundtrip (cards cards' : list card) keys' entry' type' n :
  addStoryCard keys' entry' type' cards = (cards', Ok (JNum n)) ->
  nth_error cards' (Z.to_nat n) = Some (mkCard n keys' entry' type') /\
  removeStoryCard n cards' = (cards, Ok tt).
Proof.
  unfold addStoryCard. destruct (existsb _ cards); intros H; [discriminate|].
  injection H as <- <-.
  rewrite List.length_app. cbn [List.length].
  replace (Z.of_nat (List.length cards + 1) - 1)%Z with (Z.of_nat (List.length cards)) by lia.
  rewrite Nat2Z.id. split.
  - rewrite nth_error_app2, Nat.sub_diag by lia. reflexivity.
  - unfold removeStoryCard. rewrite update_range by (rewrite List.length_app; cbn; lia).
    rewrite Nat2Z.id. f_equal. unfold splice1.
    rewrite firstn_app, firstn_all, Nat.sub_diag, app_nil_r, skipn_app.
    rewrite skipn_all2 by lia. replace (S (List.length cards) - List.length cards) with 1 by lia.
    cbn. apply app_nil_r.
Qed.

Lemma addStoryCard_removeStoryCard_roundtrip_witness :
  addStoryCard ["c"] "third" "general" [StoryCardDefs.card_first; StoryCardDefs.card_second]
    = ([StoryCardDefs.card_first; StoryCardDefs.card_second; mkCard 2 ["c"] "third" "general"],
       Ok (JNum 2)) /\
  removeStoryCard 2 [StoryCardDefs.card_first; StoryCardDefs.card_second;
                     mkCard 2 ["c"] "third" "general"]
    = ([StoryCardDefs.card_first; StoryCardDefs.card_second], Ok tt).
Proof.
  split; [reflexivity|].
  apply (proj2 (addStoryCard_removeStoryCard_roundtrip
           [StoryCardDefs.card_first; StoryCardDefs.card_second] _ ["c"] "third" "general" 2
           eq_refl)).
Defined.

End StoryCardExtras.

Module LoaderExtras.
Import Loader LoaderDefs LoaderProofs.

(** X5: A hook source that already ends with [return modifier(text);] (any
    blanks after it, with or without the semicolon) gets a second
    [return]: the capture rewrite turns its end into
    [return return modifier(text);]. *)
Theorem capture_rewrite_doubles_return (x : string) (semi : bool) (ws : string) :
  blank ws = true ->
  capture_rewrite (x ++ "return " ++ trailing_call semi ws)
    = (x ++ "return return modifier(text);")%string.
Proof.
  intros Hws.
  rewrite capture_rewrite_app by (unfold trailing_call; cbn; lia).
  rewrite (capture_rewrite_app "return ") by (unfold trailing_call; cbn; lia).
  rewrite capture_rewrite_trailing_call by exact Hws. reflexivity.
Qed.

Lemma capture_rewrite_doubles_return_witness :
  capture_rewrite ("function modifier(text) { return { text }; }" ++ nl
                   ++ "return " ++ trailing_call true nl)
    = ("function modifier(text) { return { text }; }" ++ nl
       ++ "return return modifier(text);")%string.
Proof.
  apply (capture_rewrite_doubles_return
           ("function modifier(text) { return { text }; }" ++ nl) true nl).
  reflexivity.
Defined.

End LoaderExtras.

Module ViewExtras.
Import Emulator Views ViewDefs LoaderDefs.

Lemma replace_char_app c r a b :
  replace_char c r (a ++ b) = (replace_char c r a ++ replace_char c r b)%string.
Proof.
  induction a as [|x a IH]; [reflexivity|]. cbn [append replace_char].
  rewrite IH. destruct (Ascii.eqb c x); [apply StoryCards.append_assoc|reflexivity].
Qed.

Lemma escape_passes_cons c t :
  replace_char Loader.nl_char "<br>" (replace_char ">" "&gt;"
    (replace_char "<" "&lt;" (replace_char "&" "&amp;" (String c t))))
  = (escape_html_char c ++
     replace_char Loader.nl_char "<br>" (replace_char ">" "&gt;"
       (replace_char "<" "&lt;" (replace_char "&" "&amp;" t))))%string.
Proof.
  change (String c t) with (String c EmptyString ++ t)%string.
  rewrite !replace_char_app.
  destruct c as [[] [] [] [] [] [] [] []]; reflexivity.
Qed.

Lemma unescape_escape_char c rest :
  unescape_html (escape_html_char c ++ rest) = String c (unescape_html rest).
Proof.
  destruct c as [[] [] [] [] [] [] [] []]; reflexivity.
Qed.

Lemma has_char_escape_char c rest :
  has_char Loader.nl_char (escape_html_char c ++ rest) = has_char Loader.nl_char rest.
Proof.
  destruct c as [[] [] [] [] [] [] [] []]; reflexivity.
Qed.

(** X6: [escapeHtml] maps [null] and [undefined] to the empty string; for
    any other value its output has no line feed, and decoding the four
    entities gives back [String(value)]: no character is lost or
    confused. *)
Theorem escapeHtml_decodes :
  escapeHtml JUndef = EmptyString /\ escapeHtml JNull = EmptyString /\
  forall v, v <> JUndef -> v <> JNull ->
    unescape_html (escapeHtml v) = js_String v /\
    has_char Loader.nl_char (escapeHtml v) = false.
Proof.
  split; [reflexivity|]. split; [reflexivity|].
  intros v Hu Hn.
  assert (E : escapeHtml v = replace_char Loader.nl_char "<br>" (replace_char ">" "&gt;"
                (replace_char "<" "&lt;" (replace_char "&" "&amp;" (js_String v))))).
  { destruct v; try reflexivity; contradiction. }
  rewrite E. generalize (js_String v) as s. intros s.
  induction s as [|c t [IH1 IH2]]; [split; reflexivity|].
  rewrite escape_passes_cons, unescape_escape_char, has_char_escape_char, IH1, IH2.
  split; reflexivity.
Qed.

Lemma escapeHtml_decodes_witness :
  JStr "a<b" <> JUndef /\ JStr "a<b" <> JNull /\
  unescape_html (escapeHtml (JStr "a<b")) = "a<b".
Proof.
  split; [discriminate|]. split; [discriminate|].
  apply (proj2 (proj2 escapeHtml_decodes) (JStr "a<b")); discriminate.
Defined.

Lemma history_texts_none h :
  history_texts h = None <-> exists e d, In e h /\ text e = JSym d.
Proof.
  induction h as [|e h IH]; cbn [history_texts In].
  - split; [discriminate|]. intros [e [d [[] _]]].
  - destruct (to_string (text e)) as [s|] eqn:Es.
    + destruct (history_texts h) as [ts|] eqn:Eh.
      * split; [discriminate|]. intros [e' [d [[<-|Hin] Hd]]].
        -- rewrite Hd in Es. discriminate.
        -- assert (Some ts = None) by (apply IH; eauto). discriminate.
      * split; [intros _|reflexivity]. destruct (proj1 IH eq_refl) as [e' [d [Hin Hd]]].
        exists e', d. split; [right|]; assumption.
    + split; [intros _|reflexivity]. exists e.
      destruct (text e) as [| |[]|z|s0|d|n m|ps]; cbn in Es; try discriminate.
      exists d. split; [left|]; reflexivity.
Qed.





End ViewExtras.

Module SessionExtras.
Import Parameters Emulator EmulatorDefs EmulatorProofs SessionDefs.

Lemma run_cons H m t inputs st :
  run H ((m, t) :: inputs) st = run H inputs (fst (handleInput H m t st)).
Proof. reflexivity. Qed.

Lemma run_filter H inputs st : run H inputs st = run H (nonblank_inputs inputs) st.
Proof.
  revert st. induction inputs as [|[m t] inputs IH]; intros st; [reflexivity|].
  unfold nonblank_inputs; cbn [filter snd]. fold (nonblank_inputs inputs).
  destruct (blank t) eqn:Hb; cbn [negb].
  - rewrite run_cons, handleInput_blank by exact Hb. apply IH.
  - rewrite !run_cons. apply IH.
Qed.

(** X8: [handleInput] on a blank text (empty or only whitespace) changes
    nothing, so a session goes as if its blank inputs were not there. *)
Theorem run_ignores_blank_inputs (H : hooks) (inputs : list (string * string)) (st : emulator) :
  run H inputs st = run H (nonblank_inputs inputs) st.
Proof. apply run_filter. Qed.

Lemma safeCallHook_fst H name arg st :
  fst (safeCallHook H name arg st)
    = set_world (fst (hook_of H name (world_ st) arg)) (log_call (name, arg, history (world_ st)) st).
Proof.
  unfold safeCallHook. destruct (hook_of H name (world_ st) arg) as [w o]. cbn [fst].
  destruct o as [v|e]; [destruct (truthy v); [destruct (get_prop v "text")|]|destruct (to_string e)];
    reflexivity.
Qed.




Lemma processContext_calls H s :
  (history_texts (history (world_ s)) = None /\
   calls (fst (processContext H s)) = calls s) \/
  (exists ts, history_texts (history (world_ s)) = Some ts /\
   calls (fst (processContext H s))
     = calls s ++ [(ContextModifier, Loader.join Loader.nl ts, history (world_ s))]).
Proof.
  unfold processContext, bind, get, throw.
  destruct (history_texts (history (world_ s))) as [ts|]; [right|left; split; reflexivity].
  exists ts. split; [reflexivity|].
  unfold set_memory, modify. rewrite safeCallHook_fst. reflexivity.
Qed.

Lemma handleInput_user_calls H mode text st :
  blank text = false -> currentSide st = User ->
  exists v st2,
    calls st2 = calls st ++ [(InputModifier, text, history (world_ st))] /\
    history (world_ st2) = history (fst (inputModifier H (world_ st) text)) ++ [mkEntry "" v] /\
    calls (fst (handleInput H mode text st)) = calls (fst (processContext H st2)).
Proof.
  intros Hb Hs.
  unfold handleInput at 1. rewrite fst_bind. unfold get at 1. rewrite Hb, Hs.
  rewrite fst_bind.
  match goal with |- context [processInput H ?m text st] =>
    destruct (processInput_total H m text st) as [v E]; rewrite E end.
  rewrite fst_bind. unfold push_history at 1, modify at 1. rewrite fst_bind.
  set (st2 := set_world _ _).
  exists v, st2. split; [reflexivity|]. split; [reflexivity|].
  destruct (processContext H st2) as [s3 [c|e]]; [|reflexivity].
  cbn [fst]. rewrite fst_bind. unfold modify at 1. rewrite fst_bind_renderer by reflexivity.
  reflexivity.
Qed.

(** X11: Hook calls of one turn with a non-blank text: on the AI's side only
    [outputModifier] runs, on the text; on the user's side
    [inputModifier] runs on the text, then, unless a history text is a
    Symbol, [contextModifier] once, on the join of the history's texts,
    with the history it is handed ending in the entry just recorded. *)
Theorem handleInput_hook_calls (H : hooks) (mode text : string) (st : emulator) :
  blank text = false ->
  (currentSide st = AI ->
   calls (fst (handleInput H mode text st))
     = calls st ++ [(OutputModifier, text, history (world_ st))]) /\
  (currentSide st = User ->
   calls (fst (handleInput H mode text st))
     = calls st ++ [(InputModifier, text, history (world_ st))] \/
   exists v ts,
     let h := history (fst (inputModifier H (world_ st) text)) ++ [mkEntry "" v] in
     history_texts h = Some ts /\
     calls (fst (handleInput H mode text st))
       = calls st ++ [(InputModifier, text, history (world_ st));
                      (ContextModifier, Loader.join Loader.nl ts, h)]).
Proof.
  intros Hb. split; intros Hs.
  - unfold handleInput at 1. rewrite fst_bind. unfold get at 1. rewrite Hb, Hs.
    rewrite fst_bind. destruct (processOutput_total H text st) as [v E]. rewrite E.
    rewrite fst_bind. unfold push_history at 1, modify at 1. rewrite fst_bind.
    unfold modify at 1. rewrite fst_bind_renderer by reflexivity. reflexivity.
  - destruct (handleInput_user_calls H mode text st Hb Hs) as [v [st2 [Ec [Eh E]]]].
    rewrite E.
    destruct (processContext_calls H st2) as [[_ Ec2]|[ts [Ets Ec2]]]; rewrite Ec2, Ec.
    + left. reflexivity.
    + right. exists v, ts. cbv zeta. rewrite <- Eh. split; [exact Ets|].
      rewrite <- app_assoc. reflexivity.
Qed.

Lemma handleInput_hook_calls_witness :
  blank "hello" = false /\
  calls (fst (handleInput id_hooks "say" "hello" (set_side AI new_emulator)))
    = calls (set_side AI new_emulator)
      ++ [(OutputModifier, "hello", history (world_ (set_side AI new_emulator)))].
Proof.
  split; [reflexivity|].
  apply (proj1 (handleInput_hook_calls id_hooks "say" "hello" (set_side AI new_emulator)
                  eq_refl)).
  reflexivity.
Defined.

Lemma handleInput_id m t st ts :
  blank t = false -> history_texts (history (world_ st)) = Some ts ->
  history (world_ (fst (handleInput id_hooks m t st))) = history (world_ st) ++ [mkEntry "" (JStr t)] /\
  currentSide (fst (handleInput id_hooks m t st)) = flip (currentSide st).
Proof.
  intros Hb Ht. destruct (currentSide st) eqn:Hs.
  - rewrite (handleInput_user_eq id_hooks m t st (world_ st) (Returned (JObj [("text", JStr t)])))
      by first [exact (id_hook_printable ContextModifier) | assumption | reflexivity
               | intros err Herr; discriminate Herr].
    cbv zeta. cbn [accepted truthy get_prop assoc String.eqb Ascii.eqb Bool.eqb].
    rewrite history_texts_app, Ht. cbn [text to_string]. cbn. split; reflexivity.
  - rewrite (handleInput_ai_eq id_hooks m t st (world_ st) (Returned (JObj [("text", JStr t)])))
      by first [assumption | reflexivity | intros err Herr; discriminate Herr].
    cbv zeta. cbn [accepted truthy get_prop assoc String.eqb Ascii.eqb Bool.eqb].
    rewrite history_texts_app, Ht. cbn [text to_string]. cbn. split; reflexivity.
Qed.

Lemma run_id inputs st ts :
  forallb (fun mt => negb (blank (snd mt))) inputs = true ->
  history_texts (history (world_ st)) = Some ts ->
  history (world_ (run id_hooks inputs st))
    = history (world_ st) ++ map (fun mt => mkEntry "" (JStr (snd mt))) inputs /\
  currentSide (run id_hooks inputs st) = Nat.iter (List.length inputs) flip (currentSide st).
Proof.
  revert st ts. induction inputs as [|[m t] inputs IH]; intros st ts Hin Ht.
  - split; [symmetry; apply app_nil_r|reflexivity].
  - cbn [forallb snd] in Hin. apply andb_prop in Hin as [Hb Hin].
    apply negb_true_iff in Hb.
    destruct (handleInput_id m t st ts Hb Ht) as [E1 E2].
    rewrite run_cons.
    assert (Ht' : history_texts (history (world_ (fst (handleInput id_hooks m t st))))
                  = Some (ts ++ [t])) by (rewrite E1, history_texts_app, Ht; reflexivity).
    destruct (IH _ _ Hin Ht') as [F1 F2]. split.
    + rewrite F1, E1, <- app_assoc. reflexivity.
    + rewrite F2, E2. cbn [List.length]. rewrite Nat.iter_succ_r. reflexivity.
Qed.

Lemma forallb_nonblank inputs :
  forallb (fun mt => negb (blank (snd mt))) (nonblank_inputs inputs) = true.
Proof.
  apply forallb_forall. intros mt Hin. apply filter_In in Hin as [_ H]. exact H.
Qed.

(** X12: With the identity hooks of the scripts, a session from a new
    emulator records, after the session-start entry, each non-blank input
    text verbatim with mode [""], in order; the side alternates, starting
    with the user's. *)
Theorem identity_session_transcript (inputs : list (string * string)) :
  history (world_ (run id_hooks inputs new_emulator))
    = start_entry :: map (fun mt => mkEntry "" (JStr (snd mt))) (nonblank_inputs inputs) /\
  currentSide (run id_hooks inputs new_emulator)
    = if Nat.even (List.length (nonblank_inputs inputs)) then User else AI.
Proof.
  rewrite run_filter.
  destruct (run_id (nonblank_inputs inputs) new_emulator ["=== New Session Started ==="]
              (forallb_nonblank inputs) eq_refl) as [E1 E2].
  split; [exact E1|]. rewrite E2.
  generalize (List.length (nonblank_inputs inputs)) as n. intros n.
  induction n as [|n IH]; [reflexivity|].
  rewrite Nat.iter_succ, IH, Nat.even_succ, <- Nat.negb_even.
  change (currentSide new_emulator) with User.
  destruct (Nat.even n); reflexivity.
Qed.

Lemma run_appends_modes H inputs st :
  (forall n, history_preserving (hook_of H n)) ->
  exists es, history (world_ (run H inputs st)) = history (world_ st) ++ es /\
             Forall (fun e => mode e = "") es /\
             List.length es = List.length (nonblank_inputs inputs).
Proof.
  intros Hp. rewrite run_filter. generalize (forallb_nonblank inputs).
  generalize (nonblank_inputs inputs) as l. intros l.
  revert st. induction l as [|[m t] l IH]; intros st Hin.
  - exists []. split; [symmetry; apply app_nil_r|split; constructor].
  - cbn [forallb snd] in Hin. apply andb_prop in Hin as [Ht Hin].
    rewrite run_cons.
    destruct (handleInput_appends_one H m t st Hp) as [v Ev]; [now destruct (blank t)|].
    destruct (IH (fst (handleInput H m t st)) Hin) as [es [Es [Hm Hl]]].
    exists (mkEntry "" v :: es). split; [|split].
    + rewrite Es, Ev, <- app_assoc. reflexivity.
    + constructor; [reflexivity|exact Hm].
    + cbn [List.length]. rewrite Hl. reflexivity.
Qed.

(** X13: The [mode] given to [handleInput] (or the selected mode) is never
    stored: with hooks that leave [history] alone, a session from a new
    emulator leaves the session-start entry followed by one entry per
    non-blank input, each with mode [""]. *)
Theorem session_entries_have_empty_mode (H : hooks) (inputs : list (string * string)) :
  (forall n, history_preserving (hook_of H n)) ->
  exists es, history (world_ (run H inputs new_emulator)) = start_entry :: es /\
             Forall (fun e => mode e = "") es /\
             List.length es = List.length (nonblank_inputs inputs).
Proof.
  intros Hp. destruct (run_appends_modes H inputs new_emulator Hp) as [es [E [Hm Hl]]].
  exists es. split; [exact E|split; assumption].
Qed.

Lemma session_entries_have_empty_mode_witness :
  exists es, history (world_ (run id_hooks [("do", "open the door"); ("say", "  ")]
                                new_emulator)) = start_entry :: es /\
             Forall (fun e => mode e = "") es /\
             List.length es = List.length (nonblank_inputs [("do", "open the door"); ("say", "  ")]).
Proof.
  apply (session_entries_have_empty_mode id_hooks). exact id_hook_preserving.
Defined.

(** X14: With hooks that leave [state.memory] alone, no session changes a
    memory field other than [frontMemory] ([context], [authorsNote] and
    any other field keep their values). *)
Theorem session_keeps_memory_fields (H : hooks) (inputs : list (string * string))
    (st : emulator) (k : string) :
  (forall n, memory_preserving (hook_of H n)) -> k <> "frontMemory" ->
  assoc k (memory (world_ (run H inputs st))) = assoc k (memory (world_ st)).
Proof.
  intros Hp Hk. revert st. induction inputs as [|[m t] inputs IH]; intros st; [reflexivity|].
  rewrite run_cons, IH.
  destruct (handleInput_memory H m t st Hp) as [E|E]; rewrite E; [reflexivity|].
  apply assoc_set_prop_other, Hk.
Qed.

Lemma session_keeps_memory_fields_witness :
  assoc "authorsNote" (memory (world_ (run id_hooks [("say", "hi"); ("story", "ok")] new_emulator)))
    = Some (JStr "").
Proof.
  apply (session_keeps_memory_fields id_hooks [("say", "hi"); ("story", "ok")] new_emulator
           "authorsNote").
  - exact id_hook_memory_preserving.
  - discriminate.
Defined.

End SessionExtras.

Module TurnExtras.
Import Parameters Emulator EmulatorDefs EmulatorProofs SessionDefs SessionExtras ViewExtras.


(** A user turn, once its input is recorded, is [processContext] on the
    recorded state, then the switch to the AI's side. *)
Lemma handleInput_user_decomp H mode text st :
  blank text = false -> currentSide st = User ->
  exists v st2,
    history (world_ st2) = history (fst (inputModifier H (world_ st) text)) ++ [mkEntry "" v] /\
    currentSide st2 = User /\
    handleInput H mode text st =
      match processContext H st2 with
      | (s3, Ok c) => (set_side AI s3, Ok (Some c))
      | (s3, Throw e) => (s3, Throw e)
      end.
Proof.
  intros Hb Hs.
  unfold handleInput, bind, get, ret, modify, push_history. rewrite Hb, Hs.
  match goal with |- context [processInput H ?m text st] =>
    destruct (processInput_total H m text st) as [v E]; rewrite E end.
  unfold modify. cbv beta iota.
  match goal with |- context [processContext H ?s] => exists v, s end.
  split; [reflexivity|]. split; [exact Hs|].
  match goal with |- context [processContext H ?s] => destruct (processContext H s) as [s3 [c|e]] end;
    [|reflexivity].
  unfold renderer_updateMainView, bind, get, ret. reflexivity.
Qed.





(** X16: The engine never removes or rewrites a history entry: with hooks
    that at most append to [history], every session keeps the entries it
    started with as a prefix, whatever the hooks return or throw. *)
Theorem session_history_only_grows (H : hooks) (inputs : list (string * string)) (st : emulator) :
  (forall n, history_extending (hook_of H n)) ->
  exists l, history (world_ (run H inputs st)) = history (world_ st) ++ l.
Proof. intros Hh. exact (extends_run H inputs st Hh). Qed.

Lemma session_history_only_grows_witness :
  exists l, history (world_ (run id_hooks [("say", "hi")] new_emulator))
            = history (world_ new_emulator) ++ l.
Proof.
  apply (session_history_only_grows id_hooks [("say", "hi")] new_emulator).
  intros n. apply preserving_extending, id_hook_preserving.
Defined.

(** X17: A Symbol among the history texts locks the emulator on the user's
    side: with hooks that at most append to [history], every later turn
    runs the input hook, then throws in [processContext] before the side
    switch, so no later input is handled as AI output. *)
Theorem symbol_text_locks_user_side (H : hooks) (inputs : list (string * string)) (st : emulator) :
  (forall n, history_extending (hook_of H n)) ->
  currentSide st = User ->
  (exists e d, In e (history (world_ st)) /\ text e = JSym d) ->
  currentSide (run H inputs st) = User.
Proof.
  intros Hh. revert st. induction inputs as [|[m t] inputs IH]; intros st Hs Hsym; [exact Hs|].
  rewrite run_cons. destruct (blank t) eqn:Hb.
  - rewrite handleInput_blank by exact Hb. apply IH; assumption.
  - destruct (handleInput_user_decomp H m t st Hb Hs) as [v [st2 [Eh [Hs2 E]]]].
    destruct Hsym as [e [d [Hin He]]].
    assert (Hin2 : In e (history (world_ st2))).
    { rewrite Eh. destruct (Hh InputModifier (world_ st) t) as [l El].
      cbn [hook_of] in El. rewrite El. apply in_or_app. left. apply in_or_app. left. exact Hin. }
    assert (Hn : history_texts (history (world_ st2)) = None)
      by (apply history_texts_none; eauto).
    assert (Ec : processContext H st2 = (st2, Throw conversion_error)).
    { unfold processContext, bind, get, throw. rewrite Hn. reflexivity. }
    rewrite E, Ec. cbn [fst]. apply IH; [exact Hs2|]. eauto.
Qed.

Lemma symbol_text_locks_user_side_witness :
  currentSide (run id_hooks [("say", "hello"); ("say", "again")]
                 (set_world (mkWorld [mkEntry "" (JSym "s")] [] []) new_emulator)) = User.
Proof.
  apply (symbol_text_locks_user_side id_hooks [("say", "hello"); ("say", "again")]
           (set_world (mkWorld [mkEntry "" (JSym "s")] [] []) new_emulator)).
  - intros n. apply preserving_extending, id_hook_preserving.
  - reflexivity.
  - exists (mkEntry "" (JSym "s")), "s". split; [left|]; reflexivity.
Defined.

End TurnExtras.
